(** * Casa IoT backend (main.py): house-state model and its handlers

    A shallow embedding of [main.py].  The process-wide [state] object, the
    readings of [datetime.utcnow], the calls of [requests.get] and the lines
    printed are threaded through a state-and-exception monad; Python
    exceptions are values of [exn], and a handler that raises keeps the
    writes it made before raising. *)

From Stdlib Require Import ZArith List Ascii String Bool Arith Lia.
From Stdlib Require Import Floats.PrimFloat.
Import ListNotations.
Local Open Scope string_scope.
Local Open Scope Z_scope.

(** ** Values *)

(** A naive UTC [datetime], counted in microseconds. *)
Definition datetime := Z.

(** Python's [float] (IEEE binary64).  Values are only stored and returned,
    never computed with. *)
Definition pyfloat := float.

(** [Dict[str, V]]: string keys in insertion order. *)
Definition dict (V : Type) := list (string * V).

Fixpoint dict_get {V} (k : string) (d : dict V) : option V :=
  match d with
  | [] => None
  | (k', v) :: rest => if String.eqb k k' then Some v else dict_get k rest
  end.

(** The write [d[k].attr = x] once [d[k]] has been found: the object stored
    under [k] is changed in place, the dict keeps its keys and their order. *)
Fixpoint dict_modify {V} (k : string) (f : V -> V) (d : dict V) : dict V :=
  match d with
  | [] => []
  | (k', v) :: rest =>
      if String.eqb k k' then (k', f v) :: rest
      else (k', v) :: dict_modify k f rest
  end.

Definition keys {V} (d : dict V) : list string := map fst d.
Definition values {V} (d : dict V) : list V := map snd d.

(** ** State models (the pydantic classes) *)

Module Door.
Record DoorState := mk
  { name : string; is_open : bool; last_update : datetime }.
Definition set_is_open (b : bool) (d : DoorState) : DoorState :=
  mk (name d) b (last_update d).
Definition set_last_update (t : datetime) (d : DoorState) : DoorState :=
  mk (name d) (is_open d) t.
End Door.

Module Light.
(** [room: Literal["cocina", "sala", "dorm"]] *)
Inductive Room := cocina | sala | dorm.
Record LightState := mk
  { room : Room; is_on : bool; last_update : datetime }.
Definition set_is_on (b : bool) (l : LightState) : LightState :=
  mk (room l) b (last_update l).
Definition set_last_update (t : datetime) (l : LightState) : LightState :=
  mk (room l) (is_on l) t.
End Light.

Module Pir.
Record PirState := mk { active : bool; last_update : datetime }.
Definition set_active (b : bool) (p : PirState) : PirState :=
  mk b (last_update p).
Definition set_last_update (t : datetime) (p : PirState) : PirState :=
  mk (active p) t.
End Pir.

Module Ultra.
Record UltraState := mk
  { active : bool; last_update : datetime;
    last_distance_cm : option pyfloat }.
Definition set_active (b : bool) (u : UltraState) : UltraState :=
  mk b (last_update u) (last_distance_cm u).
Definition set_last_update (t : datetime) (u : UltraState) : UltraState :=
  mk (active u) t (last_distance_cm u).
Definition set_last_distance_cm (x : pyfloat) (u : UltraState) : UltraState :=
  mk (active u) (last_update u) (Some x).
End Ultra.

Module Dht.
Record DhtState := mk
  { temperature : option pyfloat; humidity : option pyfloat;
    last_update : option datetime }.
Definition set_temperature (x : pyfloat) (d : DhtState) : DhtState :=
  mk (Some x) (humidity d) (last_update d).
Definition set_humidity (x : pyfloat) (d : DhtState) : DhtState :=
  mk (temperature d) (Some x) (last_update d).
Definition set_last_update (t : datetime) (d : DhtState) : DhtState :=
  mk (temperature d) (humidity d) (Some t).
End Dht.

Import Door Light Pir Ultra Dht.

Record HouseState := mkHouse
  { doors : dict DoorState;
    lights : dict LightState;
    pir : PirState;
    ultra : UltraState;
    dht : DhtState;
    modo_seguro_flag : bool }.

(** Request bodies. *)
Record UltraDistanceUpdate := { distance_cm : pyfloat }.
Record DhtUpdate := { upd_temperature : pyfloat; upd_humidity : pyfloat }.

(** ** Exceptions, environment and the handler monad *)

(** The exceptions the program can meet; all are subclasses of Python's
    [Exception].  The last three come out of [requests.get]. *)
Inductive exn :=
| KeyError (key : string)
| ReadTimeout (msg : string)
| ConnectionError (msg : string)
| OtherException (msg : string).

Definition exn_str (e : exn) : string :=
  match e with
  | KeyError k => "'" ++ k ++ "'"
  | ReadTimeout m => m
  | ConnectionError m => m
  | OtherException m => m
  end.

Inductive result (A : Type) :=
| Ok (a : A)
| Raise (e : exn).
Arguments Ok {A} a.
Arguments Raise {A} e.

(** What one call of [requests.get(url, timeout=3)] does. *)
Inductive GetOutcome :=
| Responded (status_code : Z)
| Raised (e : exn).

(** What the process reads from outside: the two environment variables, the
    successive readings of [datetime.utcnow] and the outcome of the
    successive calls of [requests.get]. *)
Record Env := mkEnv
  { FORWARD_TO_ESP32 : bool;
    ESP32_BASE_URL : string;
    utcnow : nat -> datetime;
    requests_get : nat -> string -> GetOutcome }.

Record World := mkWorld
  { state : HouseState;
    clock_reads : nat;
    requests_made : nat;
    stdout : list string }.

Definition M (A : Type) := World -> result A * World.

Definition ret {A} (a : A) : M A := fun w => (Ok a, w).

Definition bind {A B} (m : M A) (k : A -> M B) : M B :=
  fun w =>
    match m w with
    | (Ok a, w') => k a w'
    | (Raise e, w') => (Raise e, w')
    end.

Notation "x <- m ;; k" := (bind m (fun x => k))
  (at level 61, m at next level, right associativity).
Notation "m ;; k" := (bind m (fun _ => k))
  (at level 61, right associativity).

(** [try: body / except Exception as e: handler e] *)
Definition try_except {A} (body : M A) (handler : exn -> M A) : M A :=
  fun w =>
    match body w with
    | (Ok a, w') => (Ok a, w')
    | (Raise e, w') => handler e w'
    end.

Definition with_state (f : HouseState -> HouseState) (w : World) : World :=
  mkWorld (f (state w)) (clock_reads w) (requests_made w) (stdout w).

Definition get_state : M HouseState := fun w => (Ok (state w), w).
Definition modify_state (f : HouseState -> HouseState) : M unit :=
  fun w => (Ok tt, with_state f w).

Definition print (line : string) : M unit :=
  fun w => (Ok tt, mkWorld (state w) (clock_reads w) (requests_made w)
                           (stdout w ++ [line])).

Definition set_doors (f : dict DoorState -> dict DoorState) (s : HouseState) :=
  mkHouse (f (doors s)) (lights s) (pir s) (ultra s) (dht s) (modo_seguro_flag s).
Definition set_lights (f : dict LightState -> dict LightState) (s : HouseState) :=
  mkHouse (doors s) (f (lights s)) (pir s) (ultra s) (dht s) (modo_seguro_flag s).
Definition set_pir (f : PirState -> PirState) (s : HouseState) :=
  mkHouse (doors s) (lights s) (f (pir s)) (ultra s) (dht s) (modo_seguro_flag s).
Definition set_ultra (f : UltraState -> UltraState) (s : HouseState) :=
  mkHouse (doors s) (lights s) (pir s) (f (ultra s)) (dht s) (modo_seguro_flag s).
Definition set_dht (f : DhtState -> DhtState) (s : HouseState) :=
  mkHouse (doors s) (lights s) (pir s) (ultra s) (f (dht s)) (modo_seguro_flag s).
Definition set_modo_seguro (b : bool) (s : HouseState) :=
  mkHouse (doors s) (lights s) (pir s) (ultra s) (dht s) b.

(** [state.doors[k]]: the object under [k], named by its key, or KeyError. *)
Definition doors_getitem (k : string) : M string :=
  fun w =>
    match dict_get k (doors (state w)) with
    | Some _ => (Ok k, w)
    | None => (Raise (KeyError k), w)
    end.

Definition lights_getitem (k : string) : M string :=
  fun w =>
    match dict_get k (lights (state w)) with
    | Some _ => (Ok k, w)
    | None => (Raise (KeyError k), w)
    end.

(** Attribute writes through an object obtained from the dict. *)
Definition door_setattr (door : string) (f : DoorState -> DoorState) : M unit :=
  modify_state (set_doors (dict_modify door f)).

Definition light_setattr (light : string) (f : LightState -> LightState) : M unit :=
  modify_state (set_lights (dict_modify light f)).

(** Reading the object back when the response is built. *)
Definition door_read (door : string) : M DoorState :=
  fun w =>
    match dict_get door (doors (state w)) with
    | Some d => (Ok d, w)
    | None => (Raise (KeyError door), w)
    end.

Definition light_read (light : string) : M LightState :=
  fun w =>
    match dict_get light (lights (state w)) with
    | Some l => (Ok l, w)
    | None => (Raise (KeyError light), w)
    end.

(** [for x in d.values(): body], the body changing the object [x] in
    place; objects are visited in the dict's order. *)
Fixpoint for_values {V} (body : V -> M V) (d : dict V) : M (dict V) :=
  match d with
  | [] => ret []
  | (k, v) :: rest =>
      v' <- body v ;;
      rest' <- for_values body rest ;;
      ret ((k, v') :: rest')
  end.

Section Handlers.

Variable env : Env.

(** [now = datetime.utcnow] *)
Definition now : M datetime :=
  fun w => (Ok (utcnow env (clock_reads w)),
            mkWorld (state w) (S (clock_reads w)) (requests_made w) (stdout w)).

(** [requests.get(url, timeout=3)] *)
Definition requests_get_call (url : string) : M Z :=
  fun w =>
    let w' := mkWorld (state w) (clock_reads w) (S (requests_made w)) (stdout w) in
    match requests_get env (requests_made w) url with
    | Responded code => (Ok code, w')
    | Raised e => (Raise e, w')
    end.

Definition send_command_to_esp (path : string) : M unit :=
  if negb (FORWARD_TO_ESP32 env) then ret tt
  else
    try_except
      (let url := ESP32_BASE_URL env ++ path in
       print ("[INFO] Enviando comando al ESP32: " ++ url) ;;
       requests_get_call url ;;
       ret tt)
      (fun e =>
         print ("[WARN] No se pudo contactar al ESP32 en " ++ path ++ ": "
                ++ exn_str e)).

(** The module-level [state = HouseState(...)]: seven readings of the
    clock, in the order the constructor's arguments are evaluated. *)
Definition initial_state : HouseState :=
  mkHouse
    [ ("principal", Door.mk "principal" false (utcnow env 0));
      ("garage", Door.mk "garage" false (utcnow env 1)) ]
    [ ("cocina", Light.mk cocina false (utcnow env 2));
      ("sala", Light.mk sala false (utcnow env 3));
      ("dorm", Light.mk dorm false (utcnow env 4)) ]
    (Pir.mk false (utcnow env 5))
    (Ultra.mk false (utcnow env 6) None)
    (Dht.mk None None None)
    false.

(** The process once the module is imported. *)
Definition startup : World := mkWorld initial_state 7 0 [].

(** What a handler returns. *)
Inductive Body :=
| door_body (message : string) (door : DoorState)
| light_body (message : string) (light : LightState)
| pir_body (message : string) (p : PirState)
| ultra_body (message : string) (u : UltraState)
| dht_body (message : string) (d : DhtState)
| seguro_body (message : string) (status : HouseState)
| status_body (s : HouseState)
| dht_get_body (d : DhtState).

Definition get_status : M Body :=
  s <- get_state ;;
  ret (status_body s).

Definition principal_open : M Body :=
  door <- doors_getitem "principal" ;;
  door_setattr door (Door.set_is_open true) ;;
  t <- now ;;
  door <- doors_getitem "principal" ;;
  door_setattr door (Door.set_last_update t) ;;
  modify_state (set_modo_seguro false) ;;
  send_command_to_esp "/principal/open" ;;
  d <- door_read "principal" ;;
  ret (door_body "Puerta principal abierta" d).

Definition principal_close : M Body :=
  door <- doors_getitem "principal" ;;
  door_setattr door (Door.set_is_open false) ;;
  t <- now ;;
  door <- doors_getitem "principal" ;;
  door_setattr door (Door.set_last_update t) ;;
  send_command_to_esp "/principal/close" ;;
  d <- door_read "principal" ;;
  ret (door_body "Puerta principal cerrada" d).

Definition garage_open : M Body :=
  door <- doors_getitem "garage" ;;
  door_setattr door (Door.set_is_open true) ;;
  t <- now ;;
  door <- doors_getitem "garage" ;;
  door_setattr door (Door.set_last_update t) ;;
  modify_state (set_modo_seguro false) ;;
  send_command_to_esp "/garage/open" ;;
  d <- door_read "garage" ;;
  ret (door_body "Puerta garage abierta" d).

Definition garage_close : M Body :=
  door <- doors_getitem "garage" ;;
  door_setattr door (Door.set_is_open false) ;;
  t <- now ;;
  door <- doors_getitem "garage" ;;
  door_setattr door (Door.set_last_update t) ;;
  send_command_to_esp "/garage/close" ;;
  d <- door_read "garage" ;;
  ret (door_body "Puerta garage cerrada" d).

Definition ultra_on : M Body :=
  modify_state (set_ultra (Ultra.set_active true)) ;;
  t <- now ;;
  modify_state (set_ultra (Ultra.set_last_update t)) ;;
  send_command_to_esp "/ultra/on" ;;
  s <- get_state ;;
  ret (ultra_body "Ultrasonido activado" (ultra s)).

Definition ultra_off : M Body :=
  modify_state (set_ultra (Ultra.set_active false)) ;;
  t <- now ;;
  modify_state (set_ultra (Ultra.set_last_update t)) ;;
  send_command_to_esp "/ultra/off" ;;
  s <- get_state ;;
  ret (ultra_body "Ultrasonido desactivado" (ultra s)).

Definition ultra_update_distance (data : UltraDistanceUpdate) : M Body :=
  modify_state (set_ultra (Ultra.set_last_distance_cm (distance_cm data))) ;;
  t <- now ;;
  modify_state (set_ultra (Ultra.set_last_update t)) ;;
  s <- get_state ;;
  ret (ultra_body "Distancia actualizada" (ultra s)).

Definition cocina_on : M Body :=
  light <- lights_getitem "cocina" ;;
  light_setattr light (Light.set_is_on true) ;;
  t <- now ;;
  light_setattr light (Light.set_last_update t) ;;
  send_command_to_esp "/cocina/on" ;;
  l <- light_read light ;;
  ret (light_body "Luz cocina encendida" l).

Definition cocina_off : M Body :=
  light <- lights_getitem "cocina" ;;
  light_setattr light (Light.set_is_on false) ;;
  t <- now ;;
  light_setattr light (Light.set_last_update t) ;;
  send_command_to_esp "/cocina/off" ;;
  l <- light_read light ;;
  ret (light_body "Luz cocina apagada" l).

Definition sala_on : M Body :=
  light <- lights_getitem "sala" ;;
  light_setattr light (Light.set_is_on true) ;;
  t <- now ;;
  light_setattr light (Light.set_last_update t) ;;
  send_command_to_esp "/sala/on" ;;
  l <- light_read light ;;
  ret (light_body "Luz sala encendida" l).

Definition sala_off : M Body :=
  light <- lights_getitem "sala" ;;
  light_setattr light (Light.set_is_on false) ;;
  t <- now ;;
  light_setattr light (Light.set_last_update t) ;;
  send_command_to_esp "/sala/off" ;;
  l <- light_read light ;;
  ret (light_body "Luz sala apagada" l).

Definition dorm_on : M Body :=
  light <- lights_getitem "dorm" ;;
  light_setattr light (Light.set_is_on true) ;;
  t <- now ;;
  light_setattr light (Light.set_last_update t) ;;
  send_command_to_esp "/dorm/on" ;;
  l <- light_read light ;;
  ret (light_body "Luz dormitorio encendida" l).

Definition dorm_off : M Body :=
  light <- lights_getitem "dorm" ;;
  light_setattr light (Light.set_is_on false) ;;
  t <- now ;;
  light_setattr light (Light.set_last_update t) ;;
  send_command_to_esp "/dorm/off" ;;
  l <- light_read light ;;
  ret (light_body "Luz dormitorio apagada" l).

Definition pir_on : M Body :=
  modify_state (set_pir (Pir.set_active true)) ;;
  t <- now ;;
  modify_state (set_pir (Pir.set_last_update t)) ;;
  send_command_to_esp "/pir/on" ;;
  s <- get_state ;;
  ret (pir_body "PIR activado" (pir s)).

Definition pir_off : M Body :=
  modify_state (set_pir (Pir.set_active false)) ;;
  t <- now ;;
  modify_state (set_pir (Pir.set_last_update t)) ;;
  send_command_to_esp "/pir/off" ;;
  s <- get_state ;;
  ret (pir_body "PIR desactivado" (pir s)).

Definition dht_update (data : DhtUpdate) : M Body :=
  modify_state (set_dht (Dht.set_temperature (upd_temperature data))) ;;
  modify_state (set_dht (Dht.set_humidity (upd_humidity data))) ;;
  t <- now ;;
  modify_state (set_dht (Dht.set_last_update t)) ;;
  s <- get_state ;;
  ret (dht_body "DHT actualizado" (dht s)).

Definition dht_get : M Body :=
  s <- get_state ;;
  ret (dht_get_body (dht s)).

Definition modo_seguro : M Body :=
  (* Apagar luces *)
  s <- get_state ;;
  ls <- for_values
          (fun light =>
             let light := Light.set_is_on false light in
             t <- now ;;
             ret (Light.set_last_update t light))
          (lights s) ;;
  modify_state (set_lights (fun _ => ls)) ;;
  (* Cerrar puertas *)
  s <- get_state ;;
  ds <- for_values
          (fun door =>
             let door := Door.set_is_open false door in
             t <- now ;;
             ret (Door.set_last_update t door))
          (doors s) ;;
  modify_state (set_doors (fun _ => ds)) ;;
  (* Activar PIR, desactivar ultra *)
  modify_state (set_pir (Pir.set_active true)) ;;
  t <- now ;;
  modify_state (set_pir (Pir.set_last_update t)) ;;
  modify_state (set_ultra (Ultra.set_active false)) ;;
  t <- now ;;
  modify_state (set_ultra (Ultra.set_last_update t)) ;;
  modify_state (set_modo_seguro true) ;;
  send_command_to_esp "/modo/seguro" ;;
  s <- get_state ;;
  ret (seguro_body "MODO SEGURO ACTIVADO" s).

(** The routes of [app]. *)
Inductive Request :=
| GET_status
| principal_open_route | principal_close_route
| garage_open_route | garage_close_route
| ultra_on_route | ultra_off_route
| POST_ultra_distance (data : UltraDistanceUpdate)
| cocina_on_route | cocina_off_route
| sala_on_route | sala_off_route
| dorm_on_route | dorm_off_route
| pir_on_route | pir_off_route
| POST_dht_update (data : DhtUpdate)
| GET_dht
| modo_seguro_route.

Definition app (r : Request) : M Body :=
  match r with
  | GET_status => get_status
  | principal_open_route => principal_open
  | principal_close_route => principal_close
  | garage_open_route => garage_open
  | garage_close_route => garage_close
  | ultra_on_route => ultra_on
  | ultra_off_route => ultra_off
  | POST_ultra_distance data => ultra_update_distance data
  | cocina_on_route => cocina_on
  | cocina_off_route => cocina_off
  | sala_on_route => sala_on
  | sala_off_route => sala_off
  | dorm_on_route => dorm_on
  | dorm_off_route => dorm_off
  | pir_on_route => pir_on
  | pir_off_route => pir_off
  | POST_dht_update data => dht_update data
  | GET_dht => dht_get
  | modo_seguro_route => modo_seguro
  end.

(** The process serving requests one after the other; a request whose
    handler raised leaves the state as the handler left it. *)
Fixpoint serve (reqs : list Request) (w : World) : World :=
  match reqs with
  | [] => w
  | r :: rest => serve rest (snd (app r w))
  end.

End Handlers.

(** ** Vocabulary of the statements *)

(** The key sets the module-level [state] is built with. *)
Definition well_keyed (s : HouseState) : Prop :=
  keys (doors s) = ["principal"; "garage"] /\
  keys (lights s) = ["cocina"; "sala"; "dorm"].

(** [t] is a reading of the clock taken while the process went from [w] to
    [w']: the timestamp was refreshed by that operation. *)
Definition read_during (env : Env) (w w' : World) (t : datetime) : Prop :=
  exists i, (clock_reads w <= i < clock_reads w')%nat /\ t = utcnow env i.

(** [t] is a reading of the clock taken before [w]. *)
Definition read_before (env : Env) (w : World) (t : datetime) : Prop :=
  exists i, (i < clock_reads w)%nat /\ t = utcnow env i.

(** What [for_values] leaves in the dict when the body writes a fresh
    reading of the clock into each object: the [n]-th, [n+1]-th, ...
    readings, in the dict's order. *)
Fixpoint stamp {V} (env : Env) (g : datetime -> V -> V) (n : nat) (d : dict V)
  : dict V :=
  match d with
  | [] => []
  | (k, v) :: rest => (k, g (utcnow env n) v) :: stamp env g (S n) rest
  end.

(** The two loop bodies of [modo_seguro], as functions of the reading. *)
Definition light_off (t : datetime) (l : LightState) : LightState :=
  Light.set_last_update t (Light.set_is_on false l).
Definition door_closed (t : datetime) (d : DoorState) : DoorState :=
  Door.set_last_update t (Door.set_is_open false d).

(** The sub-entities of the house state. *)
Inductive Entity :=
| door_entity (k : string)
| light_entity (k : string)
| pir_entity
| ultra_entity
| dht_entity.

(** What a response carries besides its message. *)
Inductive Snapshot :=
| door_snapshot (d : DoorState)
| light_snapshot (l : LightState)
| pir_snapshot (p : PirState)
| ultra_snapshot (u : UltraState)
| dht_snapshot (d : DhtState)
| house_snapshot (s : HouseState).

Definition payload (b : Body) : Snapshot :=
  match b with
  | door_body _ d => door_snapshot d
  | light_body _ l => light_snapshot l
  | pir_body _ p => pir_snapshot p
  | ultra_body _ u => ultra_snapshot u
  | dht_body _ d => dht_snapshot d
  | seguro_body _ s => house_snapshot s
  | status_body s => house_snapshot s
  | dht_get_body d => dht_snapshot d
  end.

(** The sub-entity as the state holds it; None for a key the mapping lacks. *)
Definition entity_value (e : Entity) (s : HouseState) : option Snapshot :=
  match e with
  | door_entity k => option_map door_snapshot (dict_get k (doors s))
  | light_entity k => option_map light_snapshot (dict_get k (lights s))
  | pir_entity => Some (pir_snapshot (pir s))
  | ultra_entity => Some (ultra_snapshot (ultra s))
  | dht_entity => Some (dht_snapshot (dht s))
  end.

Definition snapshot_time (v : Snapshot) : option datetime :=
  match v with
  | door_snapshot d => Some (Door.last_update d)
  | light_snapshot l => Some (Light.last_update l)
  | pir_snapshot p => Some (Pir.last_update p)
  | ultra_snapshot u => Some (Ultra.last_update u)
  | dht_snapshot d => Dht.last_update d
  | house_snapshot _ => None
  end.

(** The [last_update] of a sub-entity; None when it has none yet. *)
Definition last_update_of (e : Entity) (s : HouseState) : option datetime :=
  match entity_value e s with
  | Some v => snapshot_time v
  | None => None
  end.

(** The sub-entity a route works on; None for the two routes that answer
    with the whole state. *)
Definition subject (r : Request) : option Entity :=
  match r with
  | GET_status | modo_seguro_route => None
  | principal_open_route | principal_close_route => Some (door_entity "principal")
  | garage_open_route | garage_close_route => Some (door_entity "garage")
  | ultra_on_route | ultra_off_route | POST_ultra_distance _ => Some ultra_entity
  | cocina_on_route | cocina_off_route => Some (light_entity "cocina")
  | sala_on_route | sala_off_route => Some (light_entity "sala")
  | dorm_on_route | dorm_off_route => Some (light_entity "dorm")
  | pir_on_route | pir_off_route => Some pir_entity
  | POST_dht_update _ | GET_dht => Some dht_entity
  end.

Definition subject_value (r : Request) (s : HouseState) : option Snapshot :=
  match subject r with
  | Some e => entity_value e s
  | None => Some (house_snapshot s)
  end.

(** ** The answer the framework sends *)

(** A float the framework's JSON response can carry: its encoder is called
    with [allow_nan=False] and refuses NaN and the two infinities. *)
Definition float_renders (x : option pyfloat) : bool :=
  match x with
  | Some v => PrimFloat.is_finite v
  | None => true
  end.

Definition snapshot_renders (v : Snapshot) : bool :=
  match v with
  | door_snapshot _ | light_snapshot _ | pir_snapshot _ => true
  | ultra_snapshot u => float_renders (Ultra.last_distance_cm u)
  | dht_snapshot d =>
      float_renders (Dht.temperature d) && float_renders (Dht.humidity d)
  | house_snapshot s =>
      float_renders (Ultra.last_distance_cm (ultra s))
      && (float_renders (Dht.temperature (dht s))
          && float_renders (Dht.humidity (dht s)))
  end.

(** The status code the framework answers with: 200 when the handler
    returns a body that can be rendered, 500 when the handler raises or the
    body it returned cannot be rendered. *)
Definition status_code_of (r : result Body) : Z :=
  match r with
  | Ok b => if snapshot_renders (payload b) then 200 else 500
  | Raise _ => 500
  end.




(** Order on timestamps, an absent one being below every other. *)
Definition ts_le (a b : option datetime) : Prop :=
  match a, b with
  | None, _ => True
  | Some x, Some y => x <= y
  | Some _, None => False
  end.

(** A clock that never goes back, and one that advances at every reading. *)
Definition clock_monotone (env : Env) : Prop :=
  forall i j, (i <= j)%nat -> utcnow env i <= utcnow env j.

Definition clock_strict (env : Env) : Prop :=
  forall i j, (i < j)%nat -> utcnow env i < utcnow env j.

(** Every timestamp of the state is a reading taken before [w]. *)
Definition stamped (env : Env) (w : World) : Prop :=
  forall e t, last_update_of e (state w) = Some t -> read_before env w t.

(** Two runs that agree on the house state and on the clock. *)
Definition sim (w1 w2 : World) : Prop :=
  state w1 = state w2 /\ clock_reads w1 = clock_reads w2.

Definition msim {A} (m1 m2 : M A) : Prop :=
  forall w1 w2, sim w1 w2 ->
    fst (m1 w1) = fst (m2 w2) /\ sim (snd (m1 w1)) (snd (m2 w2)).

(** [open] then [close] on the door under key [k], from [w]: the door ends
    closed, and its [last_update] compares by [cmp] across each call. *)
Definition open_then_close (env : Env) (w : World) (open close : Request)
           (k : string) (cmp : datetime -> datetime -> Prop) : Prop :=
  let w1 := snd (app env open w) in
  let w2 := snd (app env close w1) in
  exists d0 d1 d2,
    dict_get k (doors (state w)) = Some d0 /\
    dict_get k (doors (state w1)) = Some d1 /\
    dict_get k (doors (state w2)) = Some d2 /\
    Door.is_open d1 = true /\
    Door.is_open d2 = false /\
    cmp (Door.last_update d0) (Door.last_update d1) /\
    cmp (Door.last_update d1) (Door.last_update d2).

(** An environment to run the handlers in: forwarding on, a controller that
    times out, a clock that advances by one at each reading. *)
Definition env_demo : Env :=
  mkEnv true "http://192.168.1.50" (fun n => Z.of_nat n)
        (fun _ _ => Raised (ReadTimeout "timed out")).

(** The same with a clock that stands still. *)
Definition env_frozen : Env :=
  mkEnv true "http://192.168.1.50" (fun _ => 0)
        (fun _ _ => Raised (ReadTimeout "timed out")).

(** ** Configuration read when the module is imported *)

(** [os.environ], as far as [os.getenv] reads it. *)
Definition Environ := string -> option string.

(** [os.getenv(key, default)] *)
Definition getenv (environ : Environ) (key default : string) : string :=
  match environ key with
  | Some v => v
  | None => default
  end.

(** [str.lower] on the ASCII letters; every other byte is left as it is.
    No character outside ASCII lowers to one of the letters t, r, u, e, so
    the comparison with the literal below sees what Python's sees. *)
Definition lower_char (c : Ascii.ascii) : Ascii.ascii :=
  let n := Ascii.nat_of_ascii c in
  if (Nat.leb 65 n && Nat.leb n 90)%bool then Ascii.ascii_of_nat (n + 32)
  else c.

Fixpoint lower (s : string) : string :=
  match s with
  | EmptyString => EmptyString
  | String c rest => String (lower_char c) (lower rest)
  end.

(** [ESP32_BASE_URL = os.getenv("ESP32_BASE_URL", "http://192.168.1.50")] *)
Definition read_ESP32_BASE_URL (environ : Environ) : string :=
  getenv environ "ESP32_BASE_URL" "http://192.168.1.50".

(** [FORWARD_TO_ESP32 = os.getenv("FORWARD_TO_ESP32", "false").lower() == "true"] *)
Definition read_FORWARD_TO_ESP32 (environ : Environ) : bool :=
  String.eqb (lower (getenv environ "FORWARD_TO_ESP32" "false")) "true".

(** The environment of a process started under [environ]. *)
Definition process_env (environ : Environ) (clock : nat -> datetime)
           (net : nat -> string -> GetOutcome) : Env :=
  mkEnv (read_FORWARD_TO_ESP32 environ) (read_ESP32_BASE_URL environ) clock net.

(** ** Vocabulary of the further properties *)

(** The world [send_command_to_esp env path] leaves behind. *)
Definition sent (env : Env) (path : string) (w : World) : World :=
  if FORWARD_TO_ESP32 env then
    let url := ESP32_BASE_URL env ++ path in
    mkWorld (state w) (clock_reads w) (S (requests_made w))
            (stdout w
             ++ ["[INFO] Enviando comando al ESP32: " ++ url]
             ++ match requests_get env (requests_made w) url with
                | Responded _ => []
                | Raised e =>
                    ["[WARN] No se pudo contactar al ESP32 en " ++ path ++ ": "
                     ++ exn_str e]
                end)
  else w.

(** The routes whose handler calls [send_command_to_esp]. *)
Definition is_command (r : Request) : bool :=
  match r with
  | GET_status | POST_ultra_distance _ | POST_dht_update _ | GET_dht => false
  | _ => true
  end.

(** The house state with every timestamp that is set replaced by 0. *)
Definition untimed (s : HouseState) : HouseState :=
  mkHouse
    (map (fun kv => (fst kv, Door.set_last_update 0 (snd kv))) (doors s))
    (map (fun kv => (fst kv, Light.set_last_update 0 (snd kv))) (lights s))
    (Pir.set_last_update 0 (pir s))
    (Ultra.set_last_update 0 (ultra s))
    (Dht.mk (Dht.temperature (dht s)) (Dht.humidity (dht s))
            (option_map (fun _ => 0) (Dht.last_update (dht s))))
    (modo_seguro_flag s).

(** The three climate fields are all absent or all present. *)
Definition dht_consistent (d : DhtState) : Prop :=
  (Dht.temperature d = None /\ Dht.humidity d = None /\
   Dht.last_update d = None) \/
  (Dht.temperature d <> None /\ Dht.humidity d <> None /\
   Dht.last_update d <> None).

(** Each door is stored under its name and each light under its room. *)
Definition named_by_keys (s : HouseState) : Prop :=
  exists d1 d2 l1 l2 l3,
    doors s = [("principal", d1); ("garage", d2)] /\
    lights s = [("cocina", l1); ("sala", l2); ("dorm", l3)] /\
    Door.name d1 = "principal" /\ Door.name d2 = "garage" /\
    Light.room l1 = cocina /\ Light.room l2 = sala /\ Light.room l3 = dorm.

(** The reading a report route brings, if the route is one. *)
Definition reported_distance (r : Request) : option pyfloat :=
  match r with
  | POST_ultra_distance data => Some (distance_cm data)
  | _ => None
  end.

Definition reported_climate (r : Request) : option (pyfloat * pyfloat) :=
  match r with
  | POST_dht_update data => Some (upd_temperature data, upd_humidity data)
  | _ => None
  end.

(** The last reading of a list of requests, [init] when it has none. *)
Definition last_report {A} (f : Request -> option A) (reqs : list Request)
           (init : option A) : option A :=
  fold_left (fun acc r => match f r with Some x => Some x | None => acc end)
            reqs init.

(** The same process with forwarding switched off. *)
Definition quiet (env : Env) : Env :=
  mkEnv false (ESP32_BASE_URL env) (utcnow env) (requests_get env).

(** A process whose mappings are empty, to run the handlers on missing keys. *)
Definition world_without_keys : World :=
  mkWorld (mkHouse [] [] (Pir.mk false 0) (Ultra.mk false 0 None)
                   (Dht.mk None None None) true)
          0 0 [].

(** ** Dictionaries *)

Lemma dict_get_modify_same {V} (k : string) (f : V -> V) (d : dict V) :
  dict_get k (dict_modify k f d) = option_map f (dict_get k d).
Proof.
  induction d as [|[k' v] rest IH]; simpl; [reflexivity|].
  destruct (String.eqb k k') eqn:E; simpl; rewrite E; auto.
Qed.

Lemma dict_get_modify_other {V} (k k' : string) (f : V -> V) (d : dict V) :
  k <> k' -> dict_get k' (dict_modify k f d) = dict_get k' d.
Proof.
  intros Hne.
  induction d as [|[k0 v] rest IH]; simpl; [reflexivity|].
  destruct (String.eqb k k0) eqn:E; simpl.
  - apply String.eqb_eq in E; subst k0.
    destruct (String.eqb k' k) eqn:E'; [|reflexivity].
    apply String.eqb_eq in E'; congruence.
  - destruct (String.eqb k' k0); auto.
Qed.

Lemma keys_dict_modify {V} (k : string) (f : V -> V) (d : dict V) :
  keys (dict_modify k f d) = keys d.
Proof.
  unfold keys.
  induction d as [|[k' v] rest IH]; simpl; [reflexivity|].
  destruct (String.eqb k k'); simpl; congruence.
Qed.

Lemma dict_get_In {V} (k : string) (d : dict V) (v : V) :
  dict_get k d = Some v -> In v (values d).
Proof.
  unfold values.
  induction d as [|[k' v'] rest IH]; simpl; [discriminate|].
  destruct (String.eqb k k'); intros H.
  - left; congruence.
  - right; auto.
Qed.

(** ** The loop of [modo_seguro] *)

Lemma for_values_now {V} (env : Env) (g : datetime -> V -> V) (d : dict V) :
  forall w,
    for_values (fun v => t <- now env ;; ret (g t v)) d w =
    (Ok (stamp env g (clock_reads w) d),
     mkWorld (state w) (clock_reads w + List.length d) (requests_made w) (stdout w)).
Proof.
  induction d as [|[k v] rest IH]; intros w; simpl.
  - unfold ret. destruct w; simpl. rewrite Nat.add_0_r. reflexivity.
  - unfold bind at 1. unfold bind at 1. unfold now at 1, ret at 1.
    unfold bind at 1. rewrite IH. simpl. unfold ret.
    rewrite Nat.add_succ_r. reflexivity.
Qed.

Lemma keys_stamp {V} (env : Env) (g : datetime -> V -> V) (d : dict V) :
  forall n, keys (stamp env g n d) = keys d.
Proof.
  unfold keys.
  induction d as [|[k v] rest IH]; intros n; simpl; [reflexivity|].
  now rewrite IH.
Qed.

Lemma stamp_values {V} (env : Env) (g : datetime -> V -> V) (d : dict V) :
  forall n v', In v' (values (stamp env g n d)) ->
    exists i v, (n <= i < n + List.length d)%nat /\ In v (values d) /\
                v' = g (utcnow env i) v.
Proof.
  unfold values.
  induction d as [|[k v] rest IH]; intros n v' Hin; simpl in *; [tauto|].
  destruct Hin as [<-|Hin].
  - exists n, v. repeat split; auto; lia.
  - destruct (IH _ _ Hin) as (i & v0 & Hi & Hv0 & ->).
    exists i, v0. repeat split; auto; lia.
Qed.

Lemma dict_get_stamp {V} (env : Env) (g : datetime -> V -> V) (k : string)
      (d : dict V) :
  forall n,
    match dict_get k (stamp env g n d) with
    | Some v' => exists i v, (n <= i < n + List.length d)%nat /\
                             dict_get k d = Some v /\ v' = g (utcnow env i) v
    | None => dict_get k d = None
    end.
Proof.
  induction d as [|[k' v] rest IH]; intros n; simpl; [reflexivity|].
  destruct (String.eqb k k').
  - exists n, v. repeat split; auto; lia.
  - specialize (IH (S n)).
    destruct (dict_get k (stamp env g (S n) rest)) as [v'|]; auto.
    destruct IH as (i & u & Hi & Hu & ->).
    exists i, u. repeat split; auto; lia.
Qed.

(** ** The forward to the controller *)

Lemma send_command_to_esp_spec (env : Env) (path : string) (w : World) :
  exists n out,
    send_command_to_esp env path w =
    (Ok tt, mkWorld (state w) (clock_reads w) n out).
Proof.
  unfold send_command_to_esp.
  destruct (FORWARD_TO_ESP32 env); simpl.
  - unfold try_except, bind, print, requests_get_call; simpl.
    destruct (requests_get env (requests_made w) _); simpl; eauto.
  - unfold ret. destruct w; simpl; eauto.
Qed.

Ltac forward_step :=
  match goal with
  | |- context [send_command_to_esp ?e ?p ?w] =>
      let n := fresh "n" in
      let out := fresh "out" in
      let E := fresh "E" in
      destruct (send_command_to_esp_spec e p w) as (n & out & E);
      rewrite E; clear E; simpl
  end.

(** ** Safe mode in closed form *)

Lemma modo_seguro_eq (env : Env) (w : World) :
  exists n out,
    let s := state w in
    let n0 := clock_reads w in
    let nl := (n0 + List.length (lights s))%nat in
    let nd := (nl + List.length (doors s))%nat in
    let s' :=
      mkHouse (stamp env door_closed nl (doors s))
              (stamp env light_off n0 (lights s))
              (Pir.mk true (utcnow env nd))
              (Ultra.mk false (utcnow env (S nd)) (last_distance_cm (ultra s)))
              (dht s) true in
    modo_seguro env w =
    (Ok (seguro_body "MODO SEGURO ACTIVADO" s'), mkWorld s' (S (S nd)) n out).
Proof.
  unfold modo_seguro.
  unfold bind at 1. unfold get_state at 1.
  unfold bind at 1.
  change (for_values _ (lights (state w)))
    with (for_values (fun v => t <- now env ;; ret (light_off t v))
                     (lights (state w))).
  rewrite for_values_now.
  unfold bind at 1. unfold modify_state at 1.
  unfold bind at 1. unfold get_state at 1.
  unfold bind at 1.
  change (for_values _ ?d)
    with (for_values (fun v => t <- now env ;; ret (door_closed t v)) d).
  rewrite for_values_now.
  unfold bind, modify_state, now, get_state, ret, with_state; simpl.
  forward_step.
  eauto.
Qed.

Ltac lookup_step :=
  match goal with
  | |- context [match dict_get ?k ?d with _ => _ end] =>
      let E := fresh "E" in
      destruct (dict_get k d) eqn:E; simpl
  end.

Ltac run_handler :=
  unfold bind, doors_getitem, lights_getitem, door_setattr, light_setattr,
    door_read, light_read, modify_state, get_state, now, ret, with_state;
  simpl;
  repeat (first [forward_step | lookup_step]).

(** ** The claims *)

(** C1. After [modo_seguro] every light of the lights mapping is off and
    every door of the doors mapping is closed, the motion sensor is active,
    the ultrasonic sensor is inactive and the safe-mode flag is set; each of
    these objects carries a reading of the clock taken during the call; the
    mappings keep their keys; the handler returns the state as it is after
    these writes.  This holds from every state. *)
Theorem modo_seguro_forces_safe_configuration (env : Env) (w : World) :
  let w' := snd (modo_seguro env w) in
  let s' := state w' in
  keys (lights s') = keys (lights (state w)) /\
  keys (doors s') = keys (doors (state w)) /\
  Forall (fun l => Light.is_on l = false /\
                   read_during env w w' (Light.last_update l))
         (values (lights s')) /\
  Forall (fun d => Door.is_open d = false /\
                   read_during env w w' (Door.last_update d))
         (values (doors s')) /\
  Pir.active (pir s') = true /\
  read_during env w w' (Pir.last_update (pir s')) /\
  Ultra.active (ultra s') = false /\
  read_during env w w' (Ultra.last_update (ultra s')) /\
  modo_seguro_flag s' = true /\
  fst (modo_seguro env w) = Ok (seguro_body "MODO SEGURO ACTIVADO" s').
Proof.
  destruct (modo_seguro_eq env w) as (n & out & E).
  cbv zeta in E. rewrite E. cbv zeta. simpl.
  repeat split.
  - apply keys_stamp.
  - apply keys_stamp.
  - apply Forall_forall. intros l Hl.
    destruct (stamp_values _ _ _ _ _ Hl) as (i & v & Hi & _ & ->).
    split; [reflexivity|]. exists i. simpl. split; [lia|reflexivity].
  - apply Forall_forall. intros d Hd.
    destruct (stamp_values _ _ _ _ _ Hd) as (i & v & Hi & _ & ->).
    split; [reflexivity|]. exists i. simpl. split; [lia|reflexivity].
  - eexists. simpl. split; [|reflexivity]. lia.
  - eexists. simpl. split; [|reflexivity]. lia.
Qed.

(** C2. From every state in which door D exists, for D = principal with
    [/principal/open] and D = garage with [/garage/open]: after the call the
    safe-mode flag is false whatever it was, the door is open, its
    [last_update] is the reading of the clock taken during the call, and the
    handler returns that door. *)
Theorem door_open_clears_safe_mode
        (env : Env) (w : World) (r : Request) (k : string) (d : DoorState) :
  (r = principal_open_route /\ k = "principal") \/
  (r = garage_open_route /\ k = "garage") ->
  dict_get k (doors (state w)) = Some d ->
  let w' := snd (app env r w) in
  modo_seguro_flag (state w') = false /\
  exists d',
    dict_get k (doors (state w')) = Some d' /\
    Door.is_open d' = true /\
    Door.name d' = Door.name d /\
    Door.last_update d' = utcnow env (clock_reads w) /\
    read_during env w w' (Door.last_update d') /\
    exists message, fst (app env r w) = Ok (door_body message d').
Proof.
  intros Hr Hd w'.
  assert (E : exists n out message,
             app env r w =
             (Ok (door_body message
                            (Door.mk (Door.name d) true
                                     (utcnow env (clock_reads w)))),
              mkWorld
                (set_modo_seguro false
                   (set_doors
                      (dict_modify k
                         (Door.set_last_update (utcnow env (clock_reads w))))
                      (set_doors (dict_modify k (Door.set_is_open true))
                                 (state w))))
                (S (clock_reads w)) n out)).
  { destruct Hr as [[-> ->]|[-> ->]]; simpl.
    - unfold principal_open, bind, doors_getitem. rewrite Hd.
      unfold door_setattr, modify_state, now, door_read, with_state, ret.
      simpl. rewrite dict_get_modify_same, Hd. simpl.
      forward_step.
      rewrite !dict_get_modify_same, Hd. simpl. eauto.
    - unfold garage_open, bind, doors_getitem. rewrite Hd.
      unfold door_setattr, modify_state, now, door_read, with_state, ret.
      simpl. rewrite dict_get_modify_same, Hd. simpl.
      forward_step.
      rewrite !dict_get_modify_same, Hd. simpl. eauto. }
  destruct E as (n & out & message & E).
  subst w'. rewrite E. simpl.
  split; [reflexivity|].
  rewrite !dict_get_modify_same, Hd. simpl.
  eexists. split; [reflexivity|]. simpl.
  repeat split.
  - exists (clock_reads w). simpl. split; [lia|reflexivity].
  - exists message. reflexivity.
Qed.

(** C3. From every state, every route other than the two door-open routes
    and [/modo/seguro] leaves the safe-mode flag as it was: so do closing a
    door and switching a light on or off, also when the handler raises. *)
Theorem only_open_and_seguro_write_flag (env : Env) (r : Request) (w : World) :
  r <> principal_open_route ->
  r <> garage_open_route ->
  r <> modo_seguro_route ->
  modo_seguro_flag (state (snd (app env r w))) = modo_seguro_flag (state w).
Proof.
  intros H1 H2 H3.
  destruct r; try congruence; simpl;
    unfold get_status, principal_close, garage_close, ultra_on, ultra_off,
      ultra_update_distance, cocina_on, cocina_off, sala_on, sala_off,
      dorm_on, dorm_off, pir_on, pir_off, dht_update, dht_get;
    run_handler; reflexivity.
Qed.

(** C4. [ultra_update_distance] with a reading v stores exactly v in
    [ultra.last_distance_cm] and the current reading of the clock in
    [ultra.last_update]; [ultra.active] and every other field of the house
    state are as before; [get_status] afterwards returns a state with that
    value; no request is sent to the controller and nothing is printed,
    whatever the forwarding flag. *)
Theorem ultra_update_distance_frame
        (env : Env) (data : UltraDistanceUpdate) (w : World) :
  let w' := snd (ultra_update_distance env data w) in
  let s := state w in
  let s' := state w' in
  Ultra.last_distance_cm (ultra s') = Some (distance_cm data) /\
  Ultra.last_update (ultra s') = utcnow env (clock_reads w) /\
  read_during env w w' (Ultra.last_update (ultra s')) /\
  Ultra.active (ultra s') = Ultra.active (ultra s) /\
  doors s' = doors s /\
  lights s' = lights s /\
  pir s' = pir s /\
  dht s' = dht s /\
  modo_seguro_flag s' = modo_seguro_flag s /\
  fst (ultra_update_distance env data w) =
    Ok (ultra_body "Distancia actualizada" (ultra s')) /\
  (exists shown,
      fst (get_status w') = Ok (status_body shown) /\
      Ultra.last_distance_cm (ultra shown) = Some (distance_cm data) /\
      Ultra.last_update (ultra shown) = utcnow env (clock_reads w)) /\
  requests_made w' = requests_made w /\
  stdout w' = stdout w.
Proof.
  unfold ultra_update_distance, get_status.
  run_handler.
  repeat split.
  - exists (clock_reads w). simpl. split; [lia|reflexivity].
  - eexists. repeat split.
Qed.

(** C5. For every pair of floats (t, h), [dht_update] with temperature t
    and humidity h followed by [dht_get] returns temperature t, humidity h
    and a [last_update] that is not None (it is the reading of the clock
    taken by the update).  The values are the stored data themselves. *)
Theorem dht_update_then_get (env : Env) (t h : pyfloat) (w : World) :
  let w' := snd (dht_update env {| upd_temperature := t; upd_humidity := h |} w) in
  exists d,
    fst (dht_get w') = Ok (dht_get_body d) /\
    Dht.temperature d = Some t /\
    Dht.humidity d = Some h /\
    Dht.last_update d <> None /\
    Dht.last_update d = Some (utcnow env (clock_reads w)).
Proof.
  unfold dht_update, dht_get.
  run_handler.
  eexists. repeat split. discriminate.
Qed.

(** C6. In the state built when the module is imported both doors are
    closed, the three lights are off, the motion and ultrasonic sensors are
    inactive, no distance, temperature, humidity or climate timestamp is
    recorded and the safe-mode flag is false; the key sets are
    {principal, garage} and {cocina, sala, dorm}; [get_status] on the fresh
    process returns that state. *)
Theorem initial_state_defaults (env : Env) :
  let s := state (startup env) in
  keys (doors s) = ["principal"; "garage"] /\
  Forall (fun d => Door.is_open d = false) (values (doors s)) /\
  keys (lights s) = ["cocina"; "sala"; "dorm"] /\
  Forall (fun l => Light.is_on l = false) (values (lights s)) /\
  Pir.active (pir s) = false /\
  Ultra.active (ultra s) = false /\
  Ultra.last_distance_cm (ultra s) = None /\
  Dht.temperature (dht s) = None /\
  Dht.humidity (dht s) = None /\
  Dht.last_update (dht s) = None /\
  modo_seguro_flag s = false /\
  fst (get_status (startup env)) = Ok (status_body s).
Proof.
  simpl. repeat split; repeat constructor.
Qed.

(** C10. From every state, [/modo/seguro] followed by [/ultra/on] leaves the
    safe-mode flag true with the ultrasonic sensor active, and [/modo/seguro]
    followed by [/pir/off] leaves the flag true with the motion sensor
    inactive, while right after [/modo/seguro] the ultrasonic sensor is
    inactive and the motion sensor active.  Taken from the fresh process,
    these are reachable states whose flag is true and whose devices are not
    in the safe configuration. *)
Theorem safe_flag_outlives_safe_configuration (env : Env) (w : World) :
  let safe := state (serve env [modo_seguro_route] w) in
  let after_ultra_on := state (serve env [modo_seguro_route; ultra_on_route] w) in
  let after_pir_off := state (serve env [modo_seguro_route; pir_off_route] w) in
  (modo_seguro_flag safe = true /\
   Ultra.active (ultra safe) = false /\ Pir.active (pir safe) = true) /\
  (modo_seguro_flag after_ultra_on = true /\
   Ultra.active (ultra after_ultra_on) = true) /\
  (modo_seguro_flag after_pir_off = true /\
   Pir.active (pir after_pir_off) = false).
Proof.
  simpl.
  destruct (modo_seguro_eq env w) as (n & out & E).
  cbv zeta in E. rewrite E. simpl.
  unfold ultra_on, pir_off.
  run_handler.
  repeat split.
Qed.

(** ** The key sets are fixed *)

Lemma well_keyed_shape (s : HouseState) :
  well_keyed s ->
  exists d1 d2 l1 l2 l3,
    doors s = [("principal", d1); ("garage", d2)] /\
    lights s = [("cocina", l1); ("sala", l2); ("dorm", l3)].
Proof.
  unfold well_keyed, keys. intros [Hd Hl].
  destruct (doors s) as [|[k1 d1] [|[k2 d2] [|? ?]]]; try discriminate.
  destruct (lights s) as [|[r1 l1] [|[r2 l2] [|[r3 l3] [|? ?]]]];
    try discriminate.
  simpl in *.
  injection Hd as -> ->. injection Hl as -> -> ->.
  now exists d1, d2, l1, l2, l3.
Qed.

Ltac unfold_handlers :=
  unfold get_status, principal_open, principal_close, garage_open,
    garage_close, ultra_on, ultra_off, ultra_update_distance, cocina_on,
    cocina_off, sala_on, sala_off, dorm_on, dorm_off, pir_on, pir_off,
    dht_update, dht_get.

Lemma app_keeps_keys (env : Env) (r : Request) (w : World) :
  keys (doors (state (snd (app env r w)))) = keys (doors (state w)) /\
  keys (lights (state (snd (app env r w)))) = keys (lights (state w)).
Proof.
  destruct r; simpl;
    try (unfold_handlers; run_handler;
         rewrite ?keys_dict_modify; split; reflexivity).
  destruct (modo_seguro_eq env w) as (n & out & E).
  cbv zeta in E. rewrite E. simpl.
  now rewrite !keys_stamp.
Qed.

Lemma serve_well_keyed (env : Env) (reqs : list Request) :
  forall w, well_keyed (state w) -> well_keyed (state (serve env reqs w)).
Proof.
  induction reqs as [|r rest IH]; intros w Hw; simpl; [exact Hw|].
  apply IH.
  destruct (app_keeps_keys env r w) as [Hd Hl].
  destruct Hw as [Hwd Hwl].
  split; congruence.
Qed.

Lemma startup_well_keyed (env : Env) : well_keyed (state (startup env)).
Proof. split; reflexivity. Qed.

(** With the fixed keys in place every handler returns, and what it returns
    is its subject as the state holds it after the call. *)
Lemma app_returns (env : Env) (r : Request) (w : World) :
  well_keyed (state w) ->
  exists b,
    fst (app env r w) = Ok b /\
    Some (payload b) = subject_value r (state (snd (app env r w))).
Proof.
  intros Hk.
  destruct (well_keyed_shape _ Hk) as (d1 & d2 & l1 & l2 & l3 & Hd & Hl).
  destruct w as [[ds ls p u h f] n m out]. simpl in Hd, Hl. subst ds ls.
  destruct r; simpl;
    try (unfold_handlers; run_handler; eexists; split; reflexivity).
  destruct (modo_seguro_eq env
              (mkWorld (mkHouse [("principal", d1); ("garage", d2)]
                                [("cocina", l1); ("sala", l2); ("dorm", l3)]
                                p u h f) n m out)) as (n' & out' & E).
  cbv zeta in E. rewrite E. simpl.
  eexists; split; reflexivity.
Qed.

(** ** Runs that differ only in the controller *)

Lemma msim_ret {A} (a : A) : msim (ret a) (ret a).
Proof. intros w1 w2 H. simpl. auto. Qed.

Lemma msim_bind {A B} (m1 m2 : M A) (k1 k2 : A -> M B) :
  msim m1 m2 -> (forall a, msim (k1 a) (k2 a)) ->
  msim (bind m1 k1) (bind m2 k2).
Proof.
  intros Hm Hk w1 w2 H. unfold bind.
  destruct (Hm w1 w2 H) as [Hr Hs].
  destruct (m1 w1) as [[a1|e1] w1'], (m2 w2) as [[a2|e2] w2'];
    simpl in *; try discriminate Hr.
  - injection Hr as ->. apply Hk; assumption.
  - injection Hr as ->. split; [reflexivity|assumption].
Qed.

Lemma msim_get_state : msim get_state get_state.
Proof.
  intros w1 w2 [Hs Hc]. unfold get_state; simpl. rewrite Hs.
  split; [reflexivity|split; assumption].
Qed.

Lemma msim_modify_state (f : HouseState -> HouseState) :
  msim (modify_state f) (modify_state f).
Proof.
  intros w1 w2 [Hs Hc]. unfold modify_state, with_state, sim; simpl.
  rewrite Hs. auto.
Qed.

Lemma msim_doors_getitem (k : string) : msim (doors_getitem k) (doors_getitem k).
Proof.
  intros w1 w2 [Hs Hc]. unfold doors_getitem. rewrite Hs.
  destruct (dict_get k (doors (state w2))); simpl; repeat split; auto.
Qed.

Lemma msim_lights_getitem (k : string) :
  msim (lights_getitem k) (lights_getitem k).
Proof.
  intros w1 w2 [Hs Hc]. unfold lights_getitem. rewrite Hs.
  destruct (dict_get k (lights (state w2))); simpl; repeat split; auto.
Qed.

Lemma msim_door_read (k : string) : msim (door_read k) (door_read k).
Proof.
  intros w1 w2 [Hs Hc]. unfold door_read. rewrite Hs.
  destruct (dict_get k (doors (state w2))); simpl; repeat split; auto.
Qed.

Lemma msim_light_read (k : string) : msim (light_read k) (light_read k).
Proof.
  intros w1 w2 [Hs Hc]. unfold light_read. rewrite Hs.
  destruct (dict_get k (lights (state w2))); simpl; repeat split; auto.
Qed.

Lemma msim_now (env1 env2 : Env) :
  (forall n, utcnow env1 n = utcnow env2 n) -> msim (now env1) (now env2).
Proof.
  intros Hclk w1 w2 [Hs Hc]. unfold now, sim; simpl.
  rewrite Hc, Hclk. auto.
Qed.

Lemma msim_send_command_to_esp (env1 env2 : Env) (path : string) :
  msim (send_command_to_esp env1 path) (send_command_to_esp env2 path).
Proof.
  intros w1 w2 [Hs Hc].
  destruct (send_command_to_esp_spec env1 path w1) as (n1 & o1 & ->).
  destruct (send_command_to_esp_spec env2 path w2) as (n2 & o2 & ->).
  unfold sim; simpl. auto.
Qed.

Lemma msim_for_values {V} (b1 b2 : V -> M V) (d : dict V) :
  (forall v, msim (b1 v) (b2 v)) -> msim (for_values b1 d) (for_values b2 d).
Proof.
  intros Hb.
  induction d as [|[k v] rest IH]; simpl.
  - apply msim_ret.
  - apply msim_bind; [apply Hb|]. intros v'.
    apply msim_bind; [apply IH|]. intros rest'.
    apply msim_ret.
Qed.

Ltac msim_step Hclk :=
  first
    [ apply msim_ret
    | apply msim_get_state
    | apply msim_modify_state
    | apply msim_doors_getitem
    | apply msim_lights_getitem
    | apply msim_door_read
    | apply msim_light_read
    | apply (msim_now _ _ Hclk)
    | apply msim_send_command_to_esp
    | apply msim_for_values; intros ?; cbv zeta
    | apply msim_bind; [|intros ?] ].

Lemma app_msim (env1 env2 : Env) (r : Request) :
  (forall n, utcnow env1 n = utcnow env2 n) ->
  msim (app env1 r) (app env2 r).
Proof.
  intros Hclk.
  destruct r; simpl; unfold_handlers; unfold modo_seguro, door_setattr,
    light_setattr; repeat msim_step Hclk.
Qed.



(** C8. Whatever requests the process has served since it started, the
    doors mapping still has exactly the keys principal and garage and the
    lights mapping exactly cocina, sala and dorm, each lookup of one of
    these keys succeeds, and every route's handler returns (it does not
    raise).  A route names its entity by itself: the key it works on is one
    of the fixed ones. *)
Theorem every_handler_returns (env : Env) (reqs : list Request) (r : Request) :
  let w := serve env reqs (startup env) in
  keys (doors (state w)) = ["principal"; "garage"] /\
  keys (lights (state w)) = ["cocina"; "sala"; "dorm"] /\
  Forall (fun k => fst (doors_getitem k w) = Ok k) ["principal"; "garage"] /\
  Forall (fun k => fst (lights_getitem k w) = Ok k) ["cocina"; "sala"; "dorm"] /\
  (exists b, fst (app env r w) = Ok b) /\
  match subject r with
  | Some (door_entity k) => In k ["principal"; "garage"]
  | Some (light_entity k) => In k ["cocina"; "sala"; "dorm"]
  | _ => True
  end.
Proof.
  intros w.
  assert (Hk : well_keyed (state w))
    by (apply serve_well_keyed, startup_well_keyed).
  destruct (well_keyed_shape _ Hk) as (d1 & d2 & l1 & l2 & l3 & Hd & Hl).
  destruct Hk as [Hkd Hkl].
  split; [exact Hkd|]. split; [exact Hkl|].
  split.
  { unfold doors_getitem. rewrite Hd. repeat constructor. }
  split.
  { unfold lights_getitem. rewrite Hl. repeat constructor. }
  split.
  { destruct (app_returns env r w (conj Hkd Hkl)) as (b & Hb & _).
    exists b. exact Hb. }
  destruct r; simpl; tauto.
Qed.

(** ** Timestamps *)

Ltac reading :=
  match goal with
  | |- read_during ?env _ _ (utcnow ?env ?i) =>
      exists i; simpl; split; [lia | reflexivity]
  end.

Ltac settle_entity :=
  simpl;
  repeat match goal with
         | |- context [String.eqb ?k ?c] => destruct (String.eqb k c); simpl
         end;
  first [ left; reflexivity
        | right; eexists; split; [reflexivity | simpl; reading] ].

(** One request, from a state with the fixed keys: the clock is not read
    backwards, and each sub-entity is either exactly as before or carries a
    reading taken during the call. *)
Lemma app_step (env : Env) (r : Request) (w : World) :
  well_keyed (state w) ->
  (clock_reads w <= clock_reads (snd (app env r w)))%nat /\
  forall e,
    entity_value e (state (snd (app env r w))) = entity_value e (state w) \/
    exists t,
      last_update_of e (state (snd (app env r w))) = Some t /\
      read_during env w (snd (app env r w)) t.
Proof.
  intros Hk.
  destruct (well_keyed_shape _ Hk) as (d1 & d2 & l1 & l2 & l3 & Hd & Hl).
  destruct w as [[ds ls p u h f] n m out]. simpl in Hd, Hl. subst ds ls.
  destruct r; simpl;
    try (unfold_handlers; run_handler;
         (split; [lia | intros e; unfold last_update_of;
                        destruct e; settle_entity])).
  destruct (modo_seguro_eq env
              (mkWorld (mkHouse [("principal", d1); ("garage", d2)]
                                [("cocina", l1); ("sala", l2); ("dorm", l3)]
                                p u h f) n m out)) as (n' & out' & E).
  cbv zeta in E. rewrite E. simpl.
  split; [lia|].
  intros e; unfold last_update_of; destruct e; settle_entity.
Qed.

Lemma ts_le_refl (a : option datetime) : ts_le a a.
Proof. destruct a; simpl; [lia|exact I]. Qed.

Lemma ts_le_trans (a b c : option datetime) :
  ts_le a b -> ts_le b c -> ts_le a c.
Proof. destruct a, b, c; simpl; try tauto; lia. Qed.

Lemma startup_stamped (env : Env) : stamped env (startup env).
Proof.
  intros e t. unfold last_update_of, read_before.
  destruct e; simpl;
    repeat match goal with
           | |- context [String.eqb ?k ?c] => destruct (String.eqb k c); simpl
           end;
    intros H; try discriminate H; injection H as <-;
    eexists; (split; [|reflexivity]); lia.
Qed.

Lemma app_stamped (env : Env) (r : Request) (w : World) :
  well_keyed (state w) -> stamped env w -> stamped env (snd (app env r w)).
Proof.
  intros Hk Hs e t Ht.
  destruct (app_step env r w Hk) as [Hc He].
  destruct (He e) as [Same | (t' & Ht' & i & Hi & ->)].
  - unfold last_update_of in Ht. rewrite Same in Ht.
    destruct (Hs e t Ht) as (j & Hj & ->).
    exists j. split; [lia|reflexivity].
  - rewrite Ht' in Ht. injection Ht as <-.
    exists i. split; [lia|reflexivity].
Qed.

Lemma serve_stamped (env : Env) (reqs : list Request) :
  forall w, well_keyed (state w) -> stamped env w ->
            stamped env (serve env reqs w).
Proof.
  induction reqs as [|r rest IH]; intros w Hk Hs; simpl; [exact Hs|].
  apply IH.
  - destruct (app_keeps_keys env r w) as [Hd Hl].
    destruct Hk as [Hkd Hkl]. split; congruence.
  - apply app_stamped; assumption.
Qed.

Lemma app_ts_le (env : Env) (r : Request) (w : World) (e : Entity) :
  clock_monotone env -> well_keyed (state w) -> stamped env w ->
  ts_le (last_update_of e (state w))
        (last_update_of e (state (snd (app env r w)))).
Proof.
  intros Hm Hk Hs.
  destruct (app_step env r w Hk) as [Hc He].
  destruct (He e) as [Same | (t' & Ht' & i & Hi & ->)].
  - unfold last_update_of. rewrite Same. apply ts_le_refl.
  - rewrite Ht'.
    destruct (last_update_of e (state w)) as [t0|] eqn:E0; simpl; [|exact I].
    destruct (Hs e t0 E0) as (j & Hj & ->).
    apply Hm. lia.
Qed.

Lemma serve_ts_le (env : Env) (more : list Request) (e : Entity) :
  clock_monotone env ->
  forall w, well_keyed (state w) -> stamped env w ->
    ts_le (last_update_of e (state w))
          (last_update_of e (state (serve env more w))).
Proof.
  intros Hm.
  induction more as [|r rest IH]; intros w Hk Hs; simpl.
  - apply ts_le_refl.
  - eapply ts_le_trans; [apply app_ts_le; eassumption|].
    apply IH.
    + destruct (app_keeps_keys env r w) as [Hd Hl].
      destruct Hk as [Hkd Hkl]. split; congruence.
    + apply app_stamped; assumption.
Qed.

Lemma open_then_close_holds (env : Env) (w : World)
      (cmp : datetime -> datetime -> Prop) :
  well_keyed (state w) -> stamped env w ->
  (forall i j, (i < j)%nat -> cmp (utcnow env i) (utcnow env j)) ->
  open_then_close env w principal_open_route principal_close_route
                  "principal" cmp /\
  open_then_close env w garage_open_route garage_close_route "garage" cmp.
Proof.
  intros Hk Hs Hcmp.
  destruct (well_keyed_shape _ Hk) as (d1 & d2 & l1 & l2 & l3 & Hd & Hl).
  destruct (Hs (door_entity "principal") (Door.last_update d1))
    as (j1 & Hj1 & E1).
  { unfold last_update_of. simpl. rewrite Hd. reflexivity. }
  destruct (Hs (door_entity "garage") (Door.last_update d2))
    as (j2 & Hj2 & E2).
  { unfold last_update_of. simpl. rewrite Hd. reflexivity. }
  destruct w as [[ds ls p u h f] n m out]. simpl in Hd, Hl, Hj1, Hj2.
  subst ds ls.
  unfold open_then_close. simpl.
  unfold principal_open, principal_close, garage_open, garage_close.
  split.
  - run_handler.
    do 3 eexists. repeat (split; [reflexivity|]). simpl.
    rewrite E1. split; apply Hcmp; lia.
  - run_handler.
    do 3 eexists. repeat (split; [reflexivity|]). simpl.
    rewrite E2. split; apply Hcmp; lia.
Qed.

(** C7.  With a clock that never goes back, over the runs of a process
    from its start: the [last_update] of every sub-entity is
    non-decreasing across any further sequence of requests; across one
    request a sub-entity is either exactly as before or carries a reading of
    the clock taken during that request, so no field changes without its
    timestamp being refreshed; for each door, open then close leaves it
    closed with [last_update] non-decreasing across each call, and strictly
    increasing across each call when every reading of the clock is later
    than the one before. *)
Theorem timestamps_follow_the_clock
        (env : Env) (reqs more : list Request) (r : Request) (e : Entity) :
  clock_monotone env ->
  let w := serve env reqs (startup env) in
  let w' := snd (app env r w) in
  ts_le (last_update_of e (state w))
        (last_update_of e (state (serve env more w))) /\
  (entity_value e (state w') = entity_value e (state w) \/
   exists t, last_update_of e (state w') = Some t /\ read_during env w w' t) /\
  open_then_close env w principal_open_route principal_close_route
                  "principal" Z.le /\
  open_then_close env w garage_open_route garage_close_route "garage" Z.le /\
  (clock_strict env ->
   open_then_close env w principal_open_route principal_close_route
                   "principal" Z.lt /\
   open_then_close env w garage_open_route garage_close_route "garage" Z.lt).
Proof.
  intros Hm w w'.
  assert (Hk : well_keyed (state w))
    by (apply serve_well_keyed, startup_well_keyed).
  assert (Hs : stamped env w)
    by (apply serve_stamped;
        [apply startup_well_keyed | apply startup_stamped]).
  split; [apply serve_ts_le; assumption|].
  split; [apply (app_step env r w Hk)|].
  assert (Hle : forall i j, (i < j)%nat -> utcnow env i <= utcnow env j)
    by (intros i j Hij; apply Hm; lia).
  destruct (open_then_close_holds env w Z.le Hk Hs Hle) as [Hp Hg].
  split; [exact Hp|]. split; [exact Hg|].
  intros Hstrict.
  apply open_then_close_holds; assumption.
Qed.

(** C7, strictness without an advancing clock: a clock that stands still
    never goes back, and with it opening the principal door of the fresh
    process leaves the door's [last_update] equal to what it was, not
    strictly later. *)
Lemma frozen_clock_open_close_not_strict :
  clock_monotone env_frozen /\
  ~ open_then_close env_frozen (startup env_frozen)
      principal_open_route principal_close_route "principal" Z.lt.
Proof.
  split.
  - intros i j _. simpl. lia.
  - intros (d0 & d1 & d2 & H0 & H1 & _ & _ & _ & Hlt & _).
    vm_compute in H0. vm_compute in H1.
    injection H0 as <-. injection H1 as <-.
    simpl in Hlt. lia.
Qed.

(** ** Instances on a running process *)

Lemma door_open_clears_safe_mode_witness :
  let w := serve env_demo [modo_seguro_route] (startup env_demo) in
  modo_seguro_flag (state w) = true /\
  dict_get "principal" (doors (state w)) = Some (Door.mk "principal" false 10) /\
  modo_seguro_flag (state (snd (app env_demo principal_open_route w))) = false.
Proof.
  split; [reflexivity|]. split; [reflexivity|].
  apply (door_open_clears_safe_mode
           env_demo (serve env_demo [modo_seguro_route] (startup env_demo))
           principal_open_route "principal" (Door.mk "principal" false 10)).
  - left. split; reflexivity.
  - reflexivity.
Defined.

Lemma only_open_and_seguro_write_flag_witness :
  let w := serve env_demo [modo_seguro_route] (startup env_demo) in
  modo_seguro_flag (state w) = true /\
  modo_seguro_flag (state (snd (app env_demo cocina_on_route w))) =
  modo_seguro_flag (state w).
Proof.
  split; [reflexivity|].
  apply (only_open_and_seguro_write_flag
           env_demo cocina_on_route
           (serve env_demo [modo_seguro_route] (startup env_demo)));
    discriminate.
Defined.

Lemma timestamps_follow_the_clock_witness :
  clock_monotone env_demo /\
  open_then_close env_demo (serve env_demo [modo_seguro_route] (startup env_demo))
                  garage_open_route garage_close_route "garage" Z.le.
Proof.
  assert (H : clock_monotone env_demo) by (intros i j Hij; simpl; lia).
  split; [exact H|].
  apply (timestamps_follow_the_clock
           env_demo [modo_seguro_route] [pir_off_route] ultra_on_route
           (door_entity "garage") H).
Defined.

(** ** What the forward does to the outside *)

Lemma send_command_to_esp_sent (env : Env) (path : string) (w : World) :
  send_command_to_esp env path w = (Ok tt, sent env path w).
Proof.
  unfold send_command_to_esp, sent.
  destruct (FORWARD_TO_ESP32 env); simpl; [|reflexivity].
  unfold try_except, bind, print, requests_get_call; simpl.
  destruct (requests_get env (requests_made w) _); simpl.
  - reflexivity.
  - rewrite <- app_assoc. reflexivity.
Qed.

Lemma state_sent (env : Env) (path : string) (w : World) :
  state (sent env path w) = state w.
Proof. unfold sent. destruct (FORWARD_TO_ESP32 env); reflexivity. Qed.

Lemma clock_reads_sent (env : Env) (path : string) (w : World) :
  clock_reads (sent env path w) = clock_reads w.
Proof. unfold sent. destruct (FORWARD_TO_ESP32 env); reflexivity. Qed.

Lemma sent_off (env : Env) (path : string) (w : World) :
  FORWARD_TO_ESP32 env = false -> sent env path w = w.
Proof. unfold sent. now intros ->. Qed.

Lemma requests_made_sent_on (env : Env) (path : string) (w : World) :
  FORWARD_TO_ESP32 env = true ->
  requests_made (sent env path w) = S (requests_made w).
Proof. unfold sent. now intros ->. Qed.

Ltac run_handler_sent :=
  unfold bind, doors_getitem, lights_getitem, door_setattr, light_setattr,
    door_read, light_read, modify_state, get_state, now, ret, with_state;
  simpl;
  repeat (first [ rewrite send_command_to_esp_sent; simpl
                | rewrite state_sent; simpl
                | lookup_step ]).

Lemma for_values_bind {V B} (env : Env) (g : datetime -> V -> V) (d : dict V)
      (k : dict V -> M B) (w : World) :
  bind (for_values (fun v => t <- now env ;; ret (g t v)) d) k w =
  k (stamp env g (clock_reads w) d)
    (mkWorld (state w) (clock_reads w + List.length d) (requests_made w)
             (stdout w)).
Proof. unfold bind at 1. rewrite for_values_now. reflexivity. Qed.

Lemma modo_seguro_sent (env : Env) (w : World) :
  let s := state w in
  let n0 := clock_reads w in
  let nl := (n0 + List.length (lights s))%nat in
  let nd := (nl + List.length (doors s))%nat in
  let s' :=
    mkHouse (stamp env door_closed nl (doors s))
            (stamp env light_off n0 (lights s))
            (Pir.mk true (utcnow env nd))
            (Ultra.mk false (utcnow env (S nd)) (last_distance_cm (ultra s)))
            (dht s) true in
  modo_seguro env w =
  (Ok (seguro_body "MODO SEGURO ACTIVADO" s'),
   sent env "/modo/seguro"
        (mkWorld s' (S (S nd)) (requests_made w) (stdout w))).
Proof.
  cbv zeta.
  unfold modo_seguro.
  unfold bind at 1. unfold get_state at 1.
  change (for_values _ (lights (state w)))
    with (for_values (fun v => t <- now env ;; ret (light_off t v))
                     (lights (state w))).
  rewrite for_values_bind.
  unfold bind at 1. unfold modify_state at 1.
  unfold bind at 1. unfold get_state at 1.
  change (for_values _ ?d)
    with (for_values (fun v => t <- now env ;; ret (door_closed t v)) d).
  rewrite for_values_bind.
  cbv [bind modify_state now get_state ret with_state state clock_reads
       requests_made stdout set_lights set_doors set_pir set_ultra
       set_modo_seguro doors lights pir ultra dht modo_seguro_flag
       Pir.set_active Pir.set_last_update Ultra.set_active
       Ultra.set_last_update Pir.active Pir.last_update Ultra.active
       Ultra.last_update Ultra.last_distance_cm].
  rewrite send_command_to_esp_sent.
  cbv beta iota.
  unfold sent. destruct (FORWARD_TO_ESP32 env); reflexivity.
Qed.

(** From any state, one request either leaves the request count and the
    output as they were, or changes them as one forward does. *)
Lemma app_outbound (env : Env) (r : Request) (w : World) :
  let w' := snd (app env r w) in
  (requests_made w' = requests_made w /\ stdout w' = stdout w) \/
  exists path w0,
    requests_made w0 = requests_made w /\ stdout w0 = stdout w /\
    w' = sent env path w0.
Proof.
  destruct r; simpl;
    try (unfold_handlers; run_handler_sent;
         first [ left; split; reflexivity
               | right; do 2 eexists;
                 split; [|split; [|reflexivity]]; reflexivity ]).
  rewrite modo_seguro_sent. simpl.
  right. do 2 eexists. split; [|split; [|reflexivity]]; reflexivity.
Qed.

(** X1. With forwarding off, no run of the process, from any state and
    whatever its handlers meet, calls the controller or prints a line. *)
Theorem forwarding_off_is_silent (env : Env) (reqs : list Request) (w : World) :
  FORWARD_TO_ESP32 env = false ->
  requests_made (serve env reqs w) = requests_made w /\
  stdout (serve env reqs w) = stdout w.
Proof.
  intros Hoff. revert w.
  induction reqs as [|r rest IH]; intros w; simpl; [split; reflexivity|].
  destruct (IH (snd (app env r w))) as [Hr Ho].
  rewrite Hr, Ho.
  destruct (app_outbound env r w) as [[H1 H2]|(path & w0 & H1 & H2 & H3)].
  - split; assumption.
  - rewrite H3, sent_off by assumption. split; assumption.
Qed.

(** X2. With forwarding on, one call of [send_command_to_esp] returns
    normally after exactly one call of [requests.get], never a second one,
    at the base URL followed by the path; it prints the INFO line, and after
    it the WARN line with the exception's text when the call raised; an
    answer of any status code, 2xx or not, prints no warning. *)
Theorem forward_is_one_request (env : Env) (path : string) (w : World) :
  FORWARD_TO_ESP32 env = true ->
  let url := ESP32_BASE_URL env ++ path in
  let info := "[INFO] Enviando comando al ESP32: " ++ url in
  let w' := snd (send_command_to_esp env path w) in
  fst (send_command_to_esp env path w) = Ok tt /\
  requests_made w' = S (requests_made w) /\
  match requests_get env (requests_made w) url with
  | Responded _ => stdout w' = (stdout w ++ [info])%list
  | Raised e =>
      stdout w' =
      (stdout w ++ [info;
                    ("[WARN] No se pudo contactar al ESP32 en " ++ path ++ ": "
                     ++ exn_str e)%string])%list
  end.
Proof.
  intros Hon. cbv zeta.
  rewrite send_command_to_esp_sent. simpl.
  unfold sent. rewrite Hon. simpl.
  destruct (requests_get env (requests_made w) _); repeat split.
Qed.

Lemma app_requests_made (env : Env) (r : Request) (w : World) :
  FORWARD_TO_ESP32 env = true ->
  well_keyed (state w) ->
  requests_made (snd (app env r w)) =
  (requests_made w + if is_command r then 1 else 0)%nat.
Proof.
  intros Hon Hk.
  destruct (well_keyed_shape _ Hk) as (d1 & d2 & l1 & l2 & l3 & Hd & Hl).
  destruct w as [[ds ls p u h f] n m out]. simpl in Hd, Hl. subst ds ls.
  destruct r; simpl;
    try (unfold_handlers; run_handler_sent;
         rewrite ?requests_made_sent_on by assumption; simpl; lia).
  rewrite modo_seguro_sent. simpl.
  rewrite requests_made_sent_on by assumption. simpl. lia.
Qed.

(** X3. With forwarding on, a process has called the controller once for
    each command it served since it started, and not at all for the status
    and climate reads and the two sensor reports. *)
Theorem one_request_per_command (env : Env) (reqs : list Request) :
  FORWARD_TO_ESP32 env = true ->
  requests_made (serve env reqs (startup env)) =
  List.length (filter is_command reqs).
Proof.
  intros Hon.
  assert (G : forall w, well_keyed (state w) ->
                requests_made (serve env reqs w) =
                (requests_made w + List.length (filter is_command reqs))%nat).
  { induction reqs as [|r rest IH]; intros w Hk; simpl; [lia|].
    rewrite IH.
    - rewrite app_requests_made by assumption.
      destruct (is_command r); simpl; lia.
    - destruct (app_keeps_keys env r w) as [Hd Hl].
      destruct Hk as [Hkd Hkl]. split; congruence. }
  rewrite G by apply startup_well_keyed. reflexivity.
Qed.

(** ** Frames and error paths *)

(** X4. From every state, a route leaves every sub-entity other than its
    own exactly as it was, timestamp included; this also holds when the
    handler raises. *)
Theorem route_writes_only_its_subject
        (env : Env) (r : Request) (w : World) (e0 e : Entity) :
  subject r = Some e0 ->
  e <> e0 ->
  entity_value e (state (snd (app env r w))) = entity_value e (state w).
Proof.
  intros Hs Hne.
  destruct r; simpl in Hs; try discriminate Hs; injection Hs as <-; simpl;
    unfold_handlers; run_handler;
    destruct e; simpl; try reflexivity;
    try (exfalso; apply Hne; reflexivity);
    rewrite ?dict_get_modify_other
      by (intros Heq; subst; apply Hne; reflexivity);
    reflexivity.
Qed.

(** X5. A door or light route whose key is missing from the mapping raises
    KeyError for that key before anything is written: the state, the clock,
    the request count and the output are as before, and the answer is a
    500. *)
Theorem missing_key_raises_before_any_write
        (env : Env) (r : Request) (w : World) (k : string) :
  (subject r = Some (door_entity k) /\ dict_get k (doors (state w)) = None) \/
  (subject r = Some (light_entity k) /\ dict_get k (lights (state w)) = None) ->
  app env r w = (Raise (KeyError k), w) /\
  status_code_of (fst (app env r w)) = 500.
Proof.
  intros [[Hs Hn]|[Hs Hn]];
    destruct r; simpl in Hs; try discriminate Hs; injection Hs as <-; simpl;
    unfold_handlers; unfold bind, doors_getitem, lights_getitem;
    rewrite Hn; split; reflexivity.
Qed.

(** X6. [modo_seguro] keeps what it is not meant to change: the climate
    record, the last measured distance, and under every key the same door
    name and the same light room as before (and no key appears or goes). *)
Theorem modo_seguro_keeps_records (env : Env) (w : World) (k : string) :
  let s := state w in
  let s' := state (snd (modo_seguro env w)) in
  dht s' = dht s /\
  Ultra.last_distance_cm (ultra s') = Ultra.last_distance_cm (ultra s) /\
  match dict_get k (doors s'), dict_get k (doors s) with
  | Some d', Some d => Door.name d' = Door.name d
  | None, None => True
  | _, _ => False
  end /\
  match dict_get k (lights s'), dict_get k (lights s) with
  | Some l', Some l => Light.room l' = Light.room l
  | None, None => True
  | _, _ => False
  end.
Proof.
  cbv zeta. rewrite modo_seguro_sent. simpl. rewrite state_sent. simpl.
  split; [reflexivity|]. split; [reflexivity|]. split.
  - pose proof (dict_get_stamp env door_closed k (doors (state w))
                  (clock_reads w + List.length (lights (state w)))) as H.
    destruct (dict_get k (stamp env door_closed _ (doors (state w)))).
    + destruct H as (i & v & _ & -> & ->). reflexivity.
    + rewrite H. exact I.
  - pose proof (dict_get_stamp env light_off k (lights (state w))
                  (clock_reads w)) as H.
    destruct (dict_get k (stamp env light_off _ (lights (state w)))).
    + destruct H as (i & v & _ & -> & ->). reflexivity.
    + rewrite H. exact I.
Qed.

(** ** Invariants of a running process *)

Lemma state_app_quiet (env : Env) (r : Request) (w : World) :
  state (snd (app env r w)) = state (snd (app (quiet env) r w)).
Proof.
  assert (Hclk : forall n, utcnow env n = utcnow (quiet env) n)
    by reflexivity.
  destruct (app_msim env (quiet env) r Hclk w w (conj eq_refl eq_refl))
    as [_ [H _]].
  exact H.
Qed.

Lemma app_named_by_keys (env : Env) (r : Request) (w : World) :
  named_by_keys (state w) -> named_by_keys (state (snd (app env r w))).
Proof.
  intros (d1 & d2 & l1 & l2 & l3 & Hd & Hl & N1 & N2 & R1 & R2 & R3).
  rewrite state_app_quiet.
  destruct w as [[ds ls p u h f] n m out]. simpl in Hd, Hl. subst ds ls.
  destruct env as [fwd url clk net].
  destruct d1, d2, l1, l2, l3. simpl in N1, N2, R1, R2, R3. subst.
  unfold named_by_keys.
  destruct r; cbv; do 5 eexists; repeat split.
Qed.

(** X7. Whatever requests a process has served since it started, the two
    doors are stored under their own names and the three lights under their
    own rooms: no handler renames an object or moves it to another key. *)
Theorem names_follow_keys (env : Env) (reqs : list Request) :
  named_by_keys (state (serve env reqs (startup env))).
Proof.
  assert (G : forall w, named_by_keys (state w) ->
                        named_by_keys (state (serve env reqs w))).
  { induction reqs as [|r rest IH]; intros w Hw; simpl; [exact Hw|].
    apply IH, app_named_by_keys, Hw. }
  apply G. unfold named_by_keys. simpl.
  do 5 eexists. repeat (split; [reflexivity|]). reflexivity.
Qed.

Lemma app_dht_consistent (env : Env) (r : Request) (w : World) :
  dht_consistent (dht (state w)) ->
  dht_consistent (dht (state (snd (app env r w)))).
Proof.
  intros H.
  destruct r; simpl;
    try solve [unfold_handlers; run_handler; exact H].
  - unfold dht_update. run_handler. right. repeat split; discriminate.
  - rewrite modo_seguro_sent. simpl. rewrite state_sent. exact H.
Qed.

(** X8. The three climate fields go together: from a state in which
    temperature, humidity and the climate timestamp are all absent or all
    present, they are so again after any requests, from any state of the
    mappings. *)
Theorem climate_fields_go_together (env : Env) (reqs : list Request) (w : World) :
  dht_consistent (dht (state w)) ->
  dht_consistent (dht (state (serve env reqs w))).
Proof.
  revert w.
  induction reqs as [|r rest IH]; intros w Hw; simpl; [exact Hw|].
  apply IH, app_dht_consistent, Hw.
Qed.

Lemma app_reports (env : Env) (r : Request) (w : World) :
  let s := state w in
  let s' := state (snd (app env r w)) in
  Ultra.last_distance_cm (ultra s') =
    match reported_distance r with
    | Some x => Some x
    | None => Ultra.last_distance_cm (ultra s)
    end /\
  Dht.temperature (dht s') =
    match reported_climate r with
    | Some x => Some (fst x)
    | None => Dht.temperature (dht s)
    end /\
  Dht.humidity (dht s') =
    match reported_climate r with
    | Some x => Some (snd x)
    | None => Dht.humidity (dht s)
    end.
Proof.
  destruct r; simpl;
    try solve [unfold_handlers; run_handler; repeat split].
  rewrite modo_seguro_sent. simpl. rewrite state_sent. simpl. repeat split.
Qed.

(** X9. The stored readings are those of the last report.  After any
    requests, from any state, the last distance is the one of the last
    [/ultra/distance] among them, and temperature and humidity are those of
    the last [/dht/update]; without such a request they are what they were.
    No other route, safe mode included, writes or clears a reading. *)
Theorem readings_are_the_last_report (env : Env) (reqs : list Request) (w : World) :
  let s := state w in
  let s' := state (serve env reqs w) in
  Ultra.last_distance_cm (ultra s') =
    last_report reported_distance reqs (Ultra.last_distance_cm (ultra s)) /\
  Dht.temperature (dht s') =
    last_report (fun r => option_map fst (reported_climate r)) reqs
                (Dht.temperature (dht s)) /\
  Dht.humidity (dht s') =
    last_report (fun r => option_map snd (reported_climate r)) reqs
                (Dht.humidity (dht s)).
Proof.
  cbv zeta. revert w. unfold last_report.
  induction reqs as [|r rest IH]; intros w; simpl; [repeat split|].
  destruct (IH (snd (app env r w))) as (H1 & H2 & H3).
  destruct (app_reports env r w) as (E1 & E2 & E3).
  rewrite H1, H2, H3, E1, E2, E3.
  destruct (reported_distance r), (reported_climate r); simpl; repeat split.
Qed.

(** ** The safe-mode flag over a run *)

Lemma app_flag_cases (env : Env) (r : Request) (w : World) :
  let b := modo_seguro_flag (state w) in
  let b' := modo_seguro_flag (state (snd (app env r w))) in
  match r with
  | principal_open_route | garage_open_route => b' = b \/ b' = false
  | modo_seguro_route => b' = true
  | _ => b' = b
  end.
Proof.
  destruct r; simpl;
    try solve [unfold_handlers; run_handler; auto].
  rewrite modo_seguro_sent. simpl. rewrite state_sent. reflexivity.
Qed.

(** X10. Safe mode lasts until a door-open route is served: from any state,
    after [/modo/seguro] and then any requests none of which is
    [/principal/open] or [/garage/open], the flag is true. *)
Theorem safe_mode_lasts_until_a_door_opens
        (env : Env) (rest : list Request) (w : World) :
  Forall (fun r => r <> principal_open_route /\ r <> garage_open_route) rest ->
  modo_seguro_flag (state (serve env (modo_seguro_route :: rest) w)) = true.
Proof.
  intros Hrest.
  assert (G : forall w0, modo_seguro_flag (state w0) = true ->
                modo_seguro_flag (state (serve env rest w0)) = true).
  { induction Hrest as [|r rest [H1 H2] _ IH]; intros w0 Hw0; simpl;
      [exact Hw0|].
    apply IH.
    pose proof (app_flag_cases env r w0) as Hc. cbv zeta in Hc.
    destruct r; try congruence. }
  simpl. apply G.
  exact (app_flag_cases env modo_seguro_route w).
Qed.

(** X11. Only [/modo/seguro] sets the flag: from any state whose flag is
    false, after any requests none of which is [/modo/seguro], the flag is
    still false. *)
Theorem only_modo_seguro_sets_the_flag
        (env : Env) (reqs : list Request) (w : World) :
  modo_seguro_flag (state w) = false ->
  Forall (fun r => r <> modo_seguro_route) reqs ->
  modo_seguro_flag (state (serve env reqs w)) = false.
Proof.
  intros Hw Hreqs. revert w Hw.
  induction Hreqs as [|r rest H _ IH]; intros w Hw; simpl; [exact Hw|].
  apply IH.
  pose proof (app_flag_cases env r w) as Hc. cbv zeta in Hc.
  destruct r; try congruence; destruct Hc; congruence.
Qed.

(** ** The state without its timestamps *)

Lemma serve_app (env : Env) (reqs more : list Request) :
  forall w, serve env (reqs ++ more) w = serve env more (serve env reqs w).
Proof.
  induction reqs as [|q rest IH]; intros w; simpl; [reflexivity|].
  apply IH.
Qed.

Lemma app_twice_untimed (env : Env) (r : Request) (w : World) :
  well_keyed (state w) ->
  untimed (state (snd (app env r (snd (app env r w))))) =
  untimed (state (snd (app env r w))).
Proof.
  intros Hk.
  destruct (well_keyed_shape _ Hk) as (d1 & d2 & l1 & l2 & l3 & Hd & Hl).
  assert (Hclk : forall n, utcnow env n = utcnow (quiet env) n)
    by reflexivity.
  assert (E : sim (snd (app env r w)) (snd (app (quiet env) r w)))
    by apply (app_msim env (quiet env) r Hclk w w (conj eq_refl eq_refl)).
  destruct (app_msim env (quiet env) r Hclk _ _ E) as [_ [H _]].
  rewrite H, (state_app_quiet env r w).
  destruct w as [[ds ls p u h f] n m out]. simpl in Hd, Hl. subst ds ls.
  destruct env as [fwd url clk net].
  destruct r; cbv; reflexivity.
Qed.

(** X12. Serving the same request twice in a row leaves the process, after
    any earlier requests, in the state one serving leaves it in, timestamps
    apart: a repeated command or report changes no field but
    [last_update]. *)
Theorem repeating_a_request_changes_only_timestamps
        (env : Env) (reqs : list Request) (r : Request) :
  untimed (state (serve env (reqs ++ [r; r]) (startup env))) =
  untimed (state (serve env (reqs ++ [r]) (startup env))).
Proof.
  rewrite !serve_app. simpl.
  apply app_twice_untimed.
  apply serve_well_keyed, startup_well_keyed.
Qed.

Lemma app_untimed (env1 env2 : Env) (r : Request) (w1 w2 : World) :
  well_keyed (state w1) -> well_keyed (state w2) ->
  untimed (state w1) = untimed (state w2) ->
  untimed (state (snd (app env1 r w1))) =
  untimed (state (snd (app env2 r w2))).
Proof.
  intros Hk1 Hk2 H.
  destruct (well_keyed_shape _ Hk1) as (d1 & d2 & l1 & l2 & l3 & Hd & Hl).
  destruct (well_keyed_shape _ Hk2) as (e1 & e2 & m1 & m2 & m3 & Hd' & Hl').
  rewrite (state_app_quiet env1), (state_app_quiet env2).
  destruct w1 as [[ds ls p u h f] n m out]. simpl in Hd, Hl. subst ds ls.
  destruct w2 as [[ds ls p' u' h' f'] n' m' out']. simpl in Hd', Hl'.
  subst ds ls.
  destruct env1 as [fwd1 url1 clk1 net1], env2 as [fwd2 url2 clk2 net2].
  destruct d1, d2, l1, l2, l3, e1, e2, m1, m2, m3, p, u, h, p', u', h'.
  unfold untimed in H. simpl in H.
  injection H; intros; subst.
  match goal with
  | Hlu : option_map _ ?a = option_map _ ?b |- _ =>
      destruct a, b; simpl in Hlu; try discriminate Hlu
  end.
  all: destruct r; cbv; reflexivity.
Qed.

(** X13. Timestamps apart, the state of a process is decided by the
    requests it served: two processes with any two clocks, forwarding
    settings and controllers are, after the same requests, in house states
    that differ in their timestamps only. *)
Theorem state_is_decided_by_the_requests
        (env1 env2 : Env) (reqs : list Request) :
  untimed (state (serve env1 reqs (startup env1))) =
  untimed (state (serve env2 reqs (startup env2))).
Proof.
  assert (G : forall w1 w2,
             well_keyed (state w1) -> well_keyed (state w2) ->
             untimed (state w1) = untimed (state w2) ->
             untimed (state (serve env1 reqs w1)) =
             untimed (state (serve env2 reqs w2))).
  { induction reqs as [|r rest IH]; intros w1 w2 Hk1 Hk2 H; simpl;
      [exact H|].
    apply IH.
    - destruct (app_keeps_keys env1 r w1) as [Hd Hl].
      destruct Hk1 as [Hkd Hkl]. split; congruence.
    - destruct (app_keeps_keys env2 r w2) as [Hd Hl].
      destruct Hk2 as [Hkd Hkl]. split; congruence.
    - apply app_untimed; assumption. }
  apply G; try apply startup_well_keyed. reflexivity.
Qed.

(** ** The readings of the clock inside safe mode *)

(** X14. [modo_seguro] reads the clock once per light, then once per door,
    then for the motion sensor, then for the ultrasonic sensor: with a clock
    that never goes back, after the call every light's [last_update] is at
    most every door's, every door's at most the motion sensor's, and that
    one at most the ultrasonic sensor's. *)
Theorem modo_seguro_stamps_in_order (env : Env) (w : World) :
  clock_monotone env ->
  let s' := state (snd (modo_seguro env w)) in
  Forall (fun l =>
            Forall (fun d => Light.last_update l <= Door.last_update d)
                   (values (doors s')) /\
            Light.last_update l <= Pir.last_update (pir s'))
         (values (lights s')) /\
  Forall (fun d => Door.last_update d <= Pir.last_update (pir s'))
         (values (doors s')) /\
  Pir.last_update (pir s') <= Ultra.last_update (ultra s').
Proof.
  intros Hm. cbv zeta.
  rewrite modo_seguro_sent. simpl. rewrite state_sent. simpl.
  split; [|split].
  - apply Forall_forall. intros l Hl.
    destruct (stamp_values _ _ _ _ _ Hl) as (i & v & Hi & _ & ->).
    split.
    + apply Forall_forall. intros d Hd.
      destruct (stamp_values _ _ _ _ _ Hd) as (j & v' & Hj & _ & ->).
      simpl. apply Hm. lia.
    + simpl. apply Hm. lia.
  - apply Forall_forall. intros d Hd.
    destruct (stamp_values _ _ _ _ _ Hd) as (j & v' & Hj & _ & ->).
    simpl. apply Hm. lia.
  - apply Hm. lia.
Qed.

(** ** The forwarding flag *)

Ltac settle_letter c :=
  destruct c as [[] [] [] [] [] [] [] []]; vm_compute;
  split; intros H;
  first [ discriminate H
        | left; reflexivity
        | right; reflexivity
        | reflexivity
        | destruct H as [H|H]; discriminate H ].

Lemma lower_char_t (c : Ascii.ascii) :
  lower_char c = "t"%char <-> c = "t"%char \/ c = "T"%char.
Proof. settle_letter c. Qed.

Lemma lower_char_r (c : Ascii.ascii) :
  lower_char c = "r"%char <-> c = "r"%char \/ c = "R"%char.
Proof. settle_letter c. Qed.

Lemma lower_char_u (c : Ascii.ascii) :
  lower_char c = "u"%char <-> c = "u"%char \/ c = "U"%char.
Proof. settle_letter c. Qed.

Lemma lower_char_e (c : Ascii.ascii) :
  lower_char c = "e"%char <-> c = "e"%char \/ c = "E"%char.
Proof. settle_letter c. Qed.

(** X15. Forwarding is on exactly when the variable FORWARD_TO_ESP32 is set
    to the four letters t, r, u, e, each in either case; unset, empty, set
    to anything else (1, yes, on, the word with a space after it) it is
    off. *)
Theorem forwarding_needs_the_word_true (environ : Environ) :
  read_FORWARD_TO_ESP32 environ = true <->
  exists c1 c2 c3 c4,
    environ "FORWARD_TO_ESP32" =
      Some (String c1 (String c2 (String c3 (String c4 EmptyString)))) /\
    (c1 = "t" \/ c1 = "T")%char /\
    (c2 = "r" \/ c2 = "R")%char /\
    (c3 = "u" \/ c3 = "U")%char /\
    (c4 = "e" \/ c4 = "E")%char.
Proof.
  unfold read_FORWARD_TO_ESP32, getenv.
  rewrite String.eqb_eq.
  destruct (environ "FORWARD_TO_ESP32") as [v|].
  - split.
    + destruct v as [|c1 [|c2 [|c3 [|c4 [|c5 v]]]]]; simpl; intros H;
        try discriminate H.
      injection H as H1 H2 H3 H4.
      exists c1, c2, c3, c4.
      split; [reflexivity|].
      repeat split;
        [ apply lower_char_t | apply lower_char_r
        | apply lower_char_u | apply lower_char_e ]; assumption.
    + intros (c1 & c2 & c3 & c4 & E & H1 & H2 & H3 & H4).
      injection E as ->. simpl.
      apply lower_char_t in H1. apply lower_char_r in H2.
      apply lower_char_u in H3. apply lower_char_e in H4.
      now rewrite H1, H2, H3, H4.
  - split.
    + vm_compute. intros H. discriminate H.
    + intros (c1 & c2 & c3 & c4 & E & _). discriminate E.
Qed.

(** ** Instances of the further properties *)

Lemma forwarding_off_is_silent_witness :
  let env := quiet env_demo in
  let reqs := [principal_open_route; modo_seguro_route; pir_off_route] in
  FORWARD_TO_ESP32 env = false /\
  requests_made (serve env reqs (startup env)) = 0%nat /\
  stdout (serve env reqs (startup env)) = [].
Proof.
  split; [reflexivity|].
  apply (forwarding_off_is_silent
           (quiet env_demo)
           [principal_open_route; modo_seguro_route; pir_off_route]
           (startup (quiet env_demo))).
  reflexivity.
Defined.

Lemma forward_is_one_request_witness :
  FORWARD_TO_ESP32 env_demo = true /\
  requests_made (snd (send_command_to_esp env_demo "/pir/on"
                                          (startup env_demo))) = 1%nat.
Proof.
  split; [reflexivity|].
  apply (forward_is_one_request env_demo "/pir/on" (startup env_demo)).
  reflexivity.
Defined.

Lemma one_request_per_command_witness :
  FORWARD_TO_ESP32 env_demo = true /\
  requests_made
    (serve env_demo [modo_seguro_route; GET_status; cocina_on_route; GET_dht]
           (startup env_demo)) = 2%nat.
Proof.
  split; [reflexivity|].
  apply (one_request_per_command
           env_demo [modo_seguro_route; GET_status; cocina_on_route; GET_dht]).
  reflexivity.
Defined.

Lemma route_writes_only_its_subject_witness :
  subject principal_open_route = Some (door_entity "principal") /\
  door_entity "garage" <> door_entity "principal" /\
  entity_value (door_entity "garage")
               (state (snd (app env_demo principal_open_route
                                (startup env_demo)))) =
  entity_value (door_entity "garage") (state (startup env_demo)).
Proof.
  split; [reflexivity|]. split; [discriminate|].
  apply (route_writes_only_its_subject
           env_demo principal_open_route (startup env_demo)
           (door_entity "principal") (door_entity "garage")).
  - reflexivity.
  - discriminate.
Defined.

Lemma missing_key_raises_before_any_write_witness :
  subject cocina_on_route = Some (light_entity "cocina") /\
  dict_get "cocina" (lights (state world_without_keys)) = None /\
  app env_demo cocina_on_route world_without_keys =
  (Raise (KeyError "cocina"), world_without_keys).
Proof.
  split; [reflexivity|]. split; [reflexivity|].
  apply (missing_key_raises_before_any_write
           env_demo cocina_on_route world_without_keys "cocina").
  right. split; reflexivity.
Defined.

Lemma climate_fields_go_together_witness :
  dht_consistent (dht (state (startup env_demo))) /\
  dht_consistent
    (dht (state (serve env_demo [GET_dht; modo_seguro_route]
                       (startup env_demo)))).
Proof.
  assert (H : dht_consistent (dht (state (startup env_demo))))
    by (left; repeat split).
  split; [exact H|].
  apply (climate_fields_go_together
           env_demo [GET_dht; modo_seguro_route] (startup env_demo) H).
Defined.

Lemma safe_mode_lasts_until_a_door_opens_witness :
  modo_seguro_flag
    (state (serve env_demo
                  [modo_seguro_route; cocina_on_route; principal_close_route;
                   ultra_on_route]
                  (startup env_demo))) = true.
Proof.
  apply (safe_mode_lasts_until_a_door_opens
           env_demo [cocina_on_route; principal_close_route; ultra_on_route]
           (startup env_demo)).
  repeat constructor; discriminate.
Defined.

Lemma only_modo_seguro_sets_the_flag_witness :
  modo_seguro_flag (state (startup env_demo)) = false /\
  modo_seguro_flag
    (state (serve env_demo [sala_on_route; garage_close_route; pir_on_route]
                  (startup env_demo))) = false.
Proof.
  split; [reflexivity|].
  apply (only_modo_seguro_sets_the_flag
           env_demo [sala_on_route; garage_close_route; pir_on_route]
           (startup env_demo)).
  - reflexivity.
  - repeat constructor; discriminate.
Defined.

Lemma modo_seguro_stamps_in_order_witness :
  clock_monotone env_demo /\
  Pir.last_update (pir (state (snd (modo_seguro env_demo (startup env_demo)))))
  <= Ultra.last_update
       (ultra (state (snd (modo_seguro env_demo (startup env_demo))))).
Proof.
  assert (H : clock_monotone env_demo) by (intros i j Hij; simpl; lia).
  split; [exact H|].
  apply (modo_seguro_stamps_in_order env_demo (startup env_demo) H).
Defined.

(** ** The forward comes last *)











